(** * pleroma.py: the rate-limit-aware request pipeline and the streaming
      event dispatcher

    A shallow embedding of [pleroma.py].  Python values that travel through
    the client (decoded JSON, keyword arguments, form payloads) are one
    inductive type; dicts are finite maps.  Awaiting code runs in a small
    state-and-exception monad over a world that holds the wall clock, the
    exchanges the HTTP transport is going to deliver, the log of what the
    client did, and the one mutable attribute of the client object.
    Asynchronous generators are the sequence of values they yield together
    with the exception, if any, that ended them. *)

From Stdlib Require Import ZArith NArith Ascii.
From stdpp Require Import gmap strings list pretty.

Set Warnings "-register-all".
Set Default Proof Using "Type".

Open Scope Z_scope.
Open Scope string_scope.

(** ** Python values *)

(** [None], [bool], [int], [str], [list] and [dict] with string keys: what
    [json.loads] produces (floats are not needed by this client) and what
    the client puts into request payloads. *)
Inductive value :=
| VNone
| VBool (b : bool)
| VInt (n : Z)
| VStr (s : string)
| VList (l : list value)
| VDict (d : gmap string value).

(** Python truthiness, as tested by [if x:] *)
Definition truthy (v : value) : bool :=
  match v with
  | VNone => false
  | VBool b => b
  | VInt n => negb (Z.eqb n 0)
  | VStr s => negb (String.eqb s EmptyString)
  | VList l => match l with [] => false | _ :: _ => true end
  | VDict d => negb (bool_decide (size d = 0%nat))
  end.

(** [v == s] for a string literal [s] *)
Definition eq_str (v : value) (s : string) : bool :=
  match v with
  | VStr s' => String.eqb s' s
  | _ => false
  end.

(** [v is None] *)
Definition is_None (v : value) : bool :=
  match v with
  | VNone => true
  | _ => false
  end.

(** ** Exceptions *)

Inductive exn :=
| KeyError (key : string)
| TypeError
| AttributeError
| ValueError (what : string) (arg : value)
| RuntimeError (msg : string)
| JSONDecodeError                 (* raised by json.loads *)
| ParserError                     (* raised by dateutil.parser.parse *)
| ClientError (reason : string)   (* raised by the aiohttp transport *)
| BadRequest (arg : value)
| LoginFailed (arg : value)
| BadResponse (arg : value).

(** [v[k]] for a string key: only a dict can be subscripted by a string, and
    a missing key is a [KeyError]. *)
Definition getitem (v : value) (k : string) : exn + value :=
  match v with
  | VDict d => match d !! k with
               | Some x => inr x
               | None => inl (KeyError k)
               end
  | _ => inl TypeError
  end.

(** ** HTTP responses and their headers *)

Definition ascii_lower (c : ascii) : ascii :=
  let n := nat_of_ascii c in
  if ((65 <=? n) && (n <=? 90))%nat then ascii_of_nat (n + 32) else c.

Fixpoint str_lower (s : string) : string :=
  match s with
  | EmptyString => EmptyString
  | String c s' => String (ascii_lower c) (str_lower s')
  end.

(** [resp.headers] is a case-insensitive multi-dict; [get] and subscription
    return the first value stored under the key. *)
Fixpoint headers_get (k : string) (h : list (string * string)) : option string :=
  match h with
  | [] => None
  | (k', v) :: h' =>
      if String.eqb (str_lower k') (str_lower k) then Some v else headers_get k h'
  end.

Record ClientResponse := {
  status : Z;
  headers : list (string * string);
  json : exn + value               (* what awaiting [resp.json()] does *)
}.

(** ** The world *)

(** The positional and keyword arguments a request is made with *)
Record call := { args : list value; kwargs : gmap string value }.

(** What the transport does with one request: after [delay] units of time
    it either hands over a response or fails. *)
Inductive exchange :=
| Answered (delay : N) (resp : ClientResponse)
| Failed (delay : N) (reason : string).

Inductive event :=
| Sent (t : Z) (c : call)          (* the transport is asked at time [t] *)
| Slept (t : Z) (seconds : Z)      (* [anyio.sleep(seconds)] starts at [t] *)
| Released (resp : ClientResponse) (* the response's context is exited *)
.

Record world := {
  now : Z;
  wire : list exchange;
  log : list event;
  _logged_in_id : value
}.

Definition emit (e : event) (w : world) : world :=
  {| now := now w; wire := wire w; log := log w ++ [e];
     _logged_in_id := _logged_in_id w |}.

(** ** Awaiting computations *)

(** [Pending]: the coroutine is still waiting for the transport, which has
    no further exchange to deliver. *)
Inductive outcome (A : Type) :=
| Return (a : A)
| Raise (e : exn)
| Pending.
Arguments Return {A} a.
Arguments Raise {A} e.
Arguments Pending {A}.

Definition M (A : Type) : Type := world -> outcome A * world.

Definition ret {A} (a : A) : M A := fun w => (Return a, w).
Definition raise {A} (e : exn) : M A := fun w => (Raise e, w).
Definition bind {A B} (m : M A) (k : A -> M B) : M B := fun w =>
  match m w with
  | (Return a, w') => k a w'
  | (Raise e, w') => (Raise e, w')
  | (Pending, w') => (Pending, w')
  end.
Definition lift {A} (r : exn + A) : M A :=
  match r with
  | inl e => raise e
  | inr a => ret a
  end.

Declare Scope await_scope.
Delimit Scope await_scope with await.
Notation "x <- m ;; k" := (bind m (fun x => k))
  (at level 100, m at next level, right associativity) : await_scope.
Notation "m ;;; k" := (bind m (fun _ => k))
  (at level 100, right associativity) : await_scope.
Open Scope await_scope.

(** [anyio.sleep] on the asyncio backend returns at once for a delay that
    is not positive. *)
Definition sleep (seconds : Z) : M unit := fun w =>
  (Return tt,
   {| now := now w + Z.max 0 seconds; wire := wire w;
      log := log w ++ [Slept (now w) seconds];
      _logged_in_id := _logged_in_id w |}).

(** What the date parser returns: an instant when the text names a time
    zone, as an HTTP-date does, and a reading of the wall clock without a
    zone otherwise. *)
Inductive datetime :=
| Aware (t : Z)
| Naive (t : Z).

(** [dt - datetime.now(timezone.utc)] is a [TypeError] for a [dt] without
    a zone. *)
Definition sleep_until (dt : datetime) : M unit :=
  match dt with
  | Aware t => fun w => sleep (t - now w) w
  | Naive _ => raise TypeError
  end.

(** [await self.http.request(...).__aenter__()]: the transport is asked and
    the next exchange of the wire is consumed. *)
Definition http_request (c : call) : M ClientResponse := fun w =>
  let w1 := emit (Sent (now w) c) w in
  match wire w with
  | [] => (Pending, w1)
  | Answered d resp :: rest =>
      (Return resp,
       {| now := now w + Z.of_N d; wire := rest; log := log w1;
          _logged_in_id := _logged_in_id w |})
  | Failed d reason :: rest =>
      (Raise (ClientError reason),
       {| now := now w + Z.of_N d; wire := rest; log := log w1;
          _logged_in_id := _logged_in_id w |})
  end.

(** [await self._request_cm.__aexit__(...)] *)
Definition release (resp : ClientResponse) : M unit := fun w =>
  (Return tt, emit (Released resp) w).

(** [async with cm as resp: body]: the context is exited on every way out
    of the body, and an exception of the body is not swallowed. *)
Definition async_with {A} (resp : ClientResponse) (body : M A) : M A := fun w =>
  match body w with
  | (Pending, w') => (Pending, w')
  | (r, w') => (r, emit (Released resp) w')
  end.

Section Client.

(** External collaborators: the date parser, the JSON decoder, the host
    part of a URL, and the salted-hash deny-list of hosts. *)
Variable parsedate : string -> option datetime.
Variable json_loads : string -> option value.
Variable url_host : string -> option string.
Variable blocklisted : string -> bool.

(** ** _RateLimitContextManager *)

(** [x in {'0', '1'}] for the result of [headers.get] *)
Definition in_0_1 (o : option string) : bool :=
  match o with
  | Some s => String.eqb s "0" || String.eqb s "1"
  | None => false
  end.

Definition limited (resp : ClientResponse) : bool :=
  in_0_1 (headers_get "X-RateLimit-Remaining" (headers resp)).

(** [_do_enter], with the call of [self.__aenter__()] at its end passed in
    as [aenter]. *)
Definition _do_enter (aenter : M ClientResponse) (self : call) : M ClientResponse :=
  resp <- http_request self ;;
  if negb (limited resp) then ret resp
  else
    reset <- lift (match headers_get "X-RateLimit-Reset" (headers resp) with
                   | Some s => inr s
                   | None => inl (KeyError "X-RateLimit-Reset")
                   end) ;;
    dt <- lift (match parsedate reset with
                | Some dt => inr dt
                | None => inl ParserError
                end) ;;
    sleep_until dt ;;;
    release resp ;;;
    aenter.

(** [__aenter__] and [_do_enter] call each other; every round consumes one
    exchange of the wire, so the recursion is unfolded once more than the
    wire is long. *)
Fixpoint enter (rounds : nat) (self : call) : M ClientResponse :=
  match rounds with
  | O => fun w => (Pending, w)
  | S rounds' => _do_enter (enter rounds' self) self
  end.

Definition __aenter__ (self : call) : M ClientResponse := fun w =>
  enter (S (length (wire w))) self w.

(** ** Pleroma *)

(** The client as [__init__] leaves it: the base URL without trailing
    slashes and the access token without surrounding blanks.  Its session
    is the transport of the world, and its [_logged_in_id] lives there
    too. *)
Record Pleroma := { api_base_url : string; access_token : string }.

(** [Pleroma.request]: the deny-list gate, the rate-limited exchange, and
    the translation of the response's status into an outcome. *)
Definition request (self : Pleroma) (method path : string)
    (kw : gmap string value) : M value :=
  match url_host (api_base_url self) with
  | None => raise AttributeError
  | Some host =>
      if blocklisted host then raise (RuntimeError "stop being a chud")
      else
        resp <- __aenter__ {| args := [VStr method; VStr (api_base_url self ++ path)];
                              kwargs := kw |} ;;
        async_with resp
          (if (status resp =? 400)%Z then
             body <- lift (json resp) ;;
             err <- lift (getitem body "error") ;;
             raise (BadRequest err)
           else if (status resp =? 500)%Z then
             body <- lift (json resp) ;;
             raise (BadResponse body)
           else lift (json resp))
  end.

Definition verify_credentials (self : Pleroma) : M value :=
  request self "GET" "/api/v1/accounts/verify_credentials" ∅.

Definition me := verify_credentials.

Definition set_logged_in_id (v : value) : M unit := fun w =>
  (Return tt,
   {| now := now w; wire := wire w; log := log w; _logged_in_id := v |}).

Definition _get_logged_in_id (self : Pleroma) : M value := fun w =>
  if negb (is_None (_logged_in_id w)) then (Return (_logged_in_id w), w)
  else
    (me <- me self ;;
     match getitem me "id" with
     | inr id => set_logged_in_id id ;;; (fun w' => (Return (_logged_in_id w'), w'))
     | inl (KeyError _) => raise (LoginFailed me)
     | inl e => raise e
     end) w.

Definition _unpack_id (obj : value) : value :=
  match obj with
  | VDict d => match d !! "id" with
               | Some id => id
               | None => obj
               end
  | _ => obj
  end.

(** [visibility not in {None, 'private', 'public', 'unlisted', 'direct'}]:
    membership in a set hashes its left operand, which a list or a dict
    does not allow. *)
Definition invalid_visibility (visibility : value) : exn + bool :=
  match visibility with
  | VNone => inr false
  | VStr s =>
      inr (negb (bool_decide (s ∈ ["private"; "public"; "unlisted"; "direct"])))
  | VBool _ | VInt _ => inr true
  | VList _ | VDict _ => inl TypeError
  end.

(** The form fields [post] sends: lines 205 to 214 build them from the
    arguments, and line 226 adds the ids of the uploaded files, if any. *)
Definition post_data (content in_reply_to_id cw visibility : value)
    (files_uploaded : option (list value)) : gmap string value :=
  let data : gmap string value := {[ "status" := content ]} in
  let in_reply_to_id := _unpack_id in_reply_to_id in
  let data := if truthy in_reply_to_id
              then <[ "in_reply_to_id" := in_reply_to_id ]> data else data in
  let data := if negb (is_None visibility)
              then <[ "visibility" := visibility ]> data else data in
  let data := if truthy cw then <[ "spoiler_text" := cw ]> data else data in
  match files_uploaded with
  | Some ids => <[ "media_ids[]" := VList ids ]> data
  | None => data
  end.

(** The uploads of [post] run concurrently in a task group; the group as a
    whole, lines 217 to 225, is taken as given: it returns the ids of the
    uploaded files. *)
Variable File : Type.
Variable upload_all : Pleroma -> list File -> M (list value).

Definition post (self : Pleroma) (content in_reply_to_id cw visibility : value)
    (files : option (list File)) : M value :=
  invalid <- lift (invalid_visibility visibility) ;;
  if (invalid : bool) then raise (ValueError "invalid visibility" visibility)
  else
    match files with
    | Some (f :: fs) =>
        files_uploaded <- upload_all self (f :: fs) ;;
        request self "POST" "/api/v1/statuses"
          {[ "data" := VDict (post_data content in_reply_to_id cw visibility
                                (Some files_uploaded)) ]}
    | _ =>
        request self "POST" "/api/v1/statuses"
          {[ "data" := VDict (post_data content in_reply_to_id cw visibility None) ]}
    end.

(** ** Streaming *)

Inductive WSMsgType :=
| CONTINUATION | TEXT | BINARY | PING | PONG | CLOSE | CLOSING | CLOSED | ERROR.

Record WSMessage := { type : WSMsgType; data : string }.

(** The messages the iteration over the websocket opened at a URL delivers *)
Variable ws_connect : string -> list WSMessage.

(** An asynchronous generator, observed from outside: the values it yields,
    in order, and the exception that ended it, if one did. *)
Record generator := { yielded : list value; raised : option exn }.

(** [async for x in items: body x], where the body yields some values or
    raises, and [ended] is how the iterated source itself ends. *)
Fixpoint async_for {A} (items : list A) (ended : option exn)
    (body : A -> exn + list value) : generator :=
  match items with
  | [] => {| yielded := []; raised := ended |}
  | x :: rest =>
      match body x with
      | inl e => {| yielded := []; raised := Some e |}
      | inr ys =>
          let g := async_for rest ended body in
          {| yielded := ys ++ yielded g; raised := raised g |}
      end
  end.

Definition try {A B} (r : exn + A) (k : A -> exn + B) : exn + B :=
  match r with
  | inl e => inl e
  | inr a => k a
  end.

(** [json.loads(s)], which accepts text only *)
Definition loads (s : value) : exn + value :=
  match s with
  | VStr s => match json_loads s with
              | Some v => inr v
              | None => inl JSONDecodeError
              end
  | _ => inl TypeError
  end.

(** The body of the loop of [stream] *)
Definition on_message (target_event_type : option string) (msg : WSMessage)
    : exn + list value :=
  match type msg with
  | TEXT =>
      try (loads (VStr (data msg))) (fun event =>
      try (getitem event "event") (fun ev =>
      if eq_str ev "filters_changed" then inr [event]
      else if match target_event_type with
              | None => true
              | Some t => eq_str ev t
              end
      then
        try (getitem event "payload") (fun payload =>
        try (loads payload) (fun v => inr [v]))
      else inr []))
  | _ => inr []
  end.

Definition streaming_url (self : Pleroma) (stream_name : string) : string :=
  api_base_url self ++ "/api/v1/streaming?stream=" ++ stream_name
    ++ "&access_token=" ++ access_token self.

Definition stream (self : Pleroma) (stream_name : string)
    (target_event_type : option string) : generator :=
  async_for (ws_connect (streaming_url self stream_name)) None
    (on_message target_event_type).

Definition stream_notifications (self : Pleroma) : generator :=
  let source := stream self "user:notification" (Some "notification") in
  async_for (yielded source) (raised source) (fun notif => inr [notif]).

Definition stream_mentions (self : Pleroma) : generator :=
  let source := stream_notifications self in
  async_for (yielded source) (raised source) (fun notif =>
    try (getitem notif "type") (fun t =>
    if eq_str t "mention" then inr [notif] else inr [])).

(** ** Observations on logs *)

(** How many times the transport was asked *)
Fixpoint sent_count (l : list event) : nat :=
  match l with
  | [] => 0
  | Sent _ _ :: l' => S (sent_count l')
  | _ :: l' => sent_count l'
  end.

(** The instant named by the [X-RateLimit-Reset] header *)
Definition reset_at (resp : ClientResponse) : option Z :=
  match headers_get "X-RateLimit-Reset" (headers resp) with
  | Some s => match parsedate s with
              | Some (Aware t) => Some t
              | _ => None
              end
  | None => None
  end.

(** What is raised when the header names no instant *)
Definition reset_failure (resp : ClientResponse) : exn :=
  match headers_get "X-RateLimit-Reset" (headers resp) with
  | Some s => match parsedate s with
              | Some _ => TypeError
              | None => ParserError
              end
  | None => KeyError "X-RateLimit-Reset"
  end.

(** What a run of limited responses leaves in the log when the first
    request goes out at [t]: per response, the request, the sleep that
    starts when the response is in, and the release; and the time at which
    the request after the run goes out.  A round is the delay of the
    exchange, the response, and the instant its reset header names. *)
Fixpoint rounds_log (self : call) (t : Z) (rounds : list (N * ClientResponse * Z))
    : list event :=
  match rounds with
  | [] => []
  | (d, resp, dt) :: more =>
      [Sent t self; Slept (t + Z.of_N d) (dt - (t + Z.of_N d)); Released resp]
        ++ rounds_log self (Z.max (t + Z.of_N d) dt) more
  end.

Fixpoint rounds_end (t : Z) (rounds : list (N * ClientResponse * Z)) : Z :=
  match rounds with
  | [] => t
  | (d, resp, dt) :: more => rounds_end (Z.max (t + Z.of_N d) dt) more
  end.

Definition answered (round : N * ClientResponse * Z) : exchange :=
  Answered (fst (fst round)) (snd (fst round)).

(** ** The dispatch of frames, in the words of the specification *)

(** The frame's event is one the subscriber asked for *)
Definition wanted (target_event_type : option string) (ev : value) : Prop :=
  match target_event_type with
  | None => True
  | Some t => ev = VStr t
  end.

(** [dispatched target msg out]: what a frame that decodes contributes to
    the sequence.  A [filters_changed] envelope is passed on whole; an
    envelope with a wanted event contributes the document its payload
    string holds; any other envelope contributes nothing, and neither does
    a frame that is not text. *)
Inductive dispatched (target_event_type : option string)
    : WSMessage -> list value -> Prop :=
| dispatched_filters_changed text fields :
    json_loads text = Some (VDict fields) ->
    fields !! "event" = Some (VStr "filters_changed") ->
    dispatched target_event_type {| type := TEXT; data := text |} [VDict fields]
| dispatched_payload text fields ev payload inner :
    json_loads text = Some (VDict fields) ->
    fields !! "event" = Some ev ->
    ev <> VStr "filters_changed" ->
    wanted target_event_type ev ->
    fields !! "payload" = Some (VStr payload) ->
    json_loads payload = Some inner ->
    dispatched target_event_type {| type := TEXT; data := text |} [inner]
| dispatched_discarded text fields ev :
    json_loads text = Some (VDict fields) ->
    fields !! "event" = Some ev ->
    ev <> VStr "filters_changed" ->
    ~ wanted target_event_type ev ->
    dispatched target_event_type {| type := TEXT; data := text |} []
| dispatched_not_text msg :
    type msg <> TEXT ->
    dispatched target_event_type msg [].

(** [undecodable target msg]: a text frame whose outer text is not JSON, or
    whose envelope carries a wanted event and a payload string that is not
    JSON. *)
Inductive undecodable (target_event_type : option string) : WSMessage -> Prop :=
| undecodable_frame text :
    json_loads text = None ->
    undecodable target_event_type {| type := TEXT; data := text |}
| undecodable_payload text fields ev payload :
    json_loads text = Some (VDict fields) ->
    fields !! "event" = Some ev ->
    ev <> VStr "filters_changed" ->
    wanted target_event_type ev ->
    fields !! "payload" = Some (VStr payload) ->
    json_loads payload = None ->
    undecodable target_event_type {| type := TEXT; data := text |}.

(** [notif['type'] == 'mention'], for a notification that has a type *)
Definition is_mention (notif : value) : bool :=
  match getitem notif "type" with
  | inr t => eq_str t "mention"
  | inl _ => false
  end.

(** ** Sample data *)

(** JSON texts are spelled with their quotation marks written as
    characters. *)
Definition dquote : ascii := ascii_of_nat 34.
Definition backslash : ascii := ascii_of_nat 92.

Fixpoint escaped (s : string) : string :=
  match s with
  | EmptyString => EmptyString
  | String c s' =>
      if Ascii.eqb c dquote || Ascii.eqb c backslash
      then String backslash (String c (escaped s'))
      else String c (escaped s')
  end.

(** The JSON string literal for [s] *)
Definition literal (s : string) : string :=
  String dquote (escaped s ++ String dquote EmptyString).

(** The JSON text of an object with one or two string members *)
Definition object1 (k v : string) : string :=
  "{" ++ literal k ++ ":" ++ literal v ++ "}".

Definition object2 (k1 v1 k2 v2 : string) : string :=
  "{" ++ literal k1 ++ ":" ++ literal v1 ++ ","
      ++ literal k2 ++ ":" ++ literal v2 ++ "}".

Definition doc_mention : string := object1 "type" "mention".
Definition doc_follow : string := object1 "type" "follow".
Definition doc_status : string := object1 "content" "hello".
Definition doc_filters_changed : string := object1 "event" "filters_changed".

Definition envelope (event payload : string) : string :=
  object2 "event" event "payload" payload.

Definition sample_documents : list (string * value) :=
  [ (doc_mention, VDict {[ "type" := VStr "mention" ]});
    (doc_follow, VDict {[ "type" := VStr "follow" ]});
    (doc_status, VDict {[ "content" := VStr "hello" ]});
    (doc_filters_changed, VDict {[ "event" := VStr "filters_changed" ]});
    (envelope "notification" doc_mention,
     VDict {[ "event" := VStr "notification"; "payload" := VStr doc_mention ]});
    (envelope "notification" doc_follow,
     VDict {[ "event" := VStr "notification"; "payload" := VStr doc_follow ]});
    (envelope "update" doc_status,
     VDict {[ "event" := VStr "update"; "payload" := VStr doc_status ]});
    (envelope "notification" "not json",
     VDict {[ "event" := VStr "notification"; "payload" := VStr "not json" ]}) ].

Fixpoint lookup_document (s : string) (docs : list (string * value)) : option value :=
  match docs with
  | [] => None
  | (text, v) :: docs' => if String.eqb text s then Some v else lookup_document s docs'
  end.

(** A decoder that knows the sample documents and rejects every other
    text, among them [not json]. *)
Definition sample_loads (s : string) : option value :=
  lookup_document s sample_documents.

Definition text_frame (s : string) : WSMessage := {| type := TEXT; data := s |}.

Definition sample_frames : list WSMessage :=
  [ text_frame doc_filters_changed;
    text_frame (envelope "notification" doc_mention);
    text_frame (envelope "update" doc_status);
    {| type := PING; data := EmptyString |};
    text_frame (envelope "notification" doc_follow) ].

Definition frames_filters_then_mention : list WSMessage :=
  [ text_frame doc_filters_changed;
    text_frame (envelope "notification" doc_mention) ].

Definition frames_broken_outer : list WSMessage :=
  [ text_frame (envelope "notification" doc_mention);
    text_frame "not json";
    text_frame (envelope "notification" doc_follow) ].

Definition frames_broken_payload : list WSMessage :=
  [ text_frame (envelope "notification" "not json");
    text_frame (envelope "notification" doc_follow) ].

(** An HTTP-date, one hundred seconds after the epoch, and the same
    reading without a zone; the sample parser knows these two only, and
    like [dateutil] it rejects the word [soon]. *)
Definition sample_reset : string := "Thu, 01 Jan 1970 00:01:40 GMT".
Definition sample_reset_naive : string := "1970-01-01 00:01:40".

Definition sample_parsedate (s : string) : option datetime :=
  if String.eqb s sample_reset then Some (Aware 100)
  else if String.eqb s sample_reset_naive then Some (Naive 100)
  else None.

Definition sample_host (url : string) : option string := Some "example.test".

Definition sample_blocklisted (host : string) : bool := false.

Definition sample_client : Pleroma :=
  {| api_base_url := "https://example.test"; access_token := "abc" |}.

Definition sample_call : call :=
  {| args := [VStr "GET";
              VStr "https://example.test/api/v1/accounts/verify_credentials"];
     kwargs := ∅ |}.

Definition sample_account : value := VDict {[ "id" := VStr "42" ]}.

Definition resp_ok : ClientResponse :=
  {| status := 200;
     headers := [("X-RateLimit-Remaining", "299"); ("X-RateLimit-Reset", sample_reset)];
     json := inr sample_account |}.

Definition resp_limited : ClientResponse :=
  {| status := 200;
     headers := [("X-RateLimit-Remaining", "0"); ("X-RateLimit-Reset", sample_reset)];
     json := inr sample_account |}.

Definition resp_limited_no_reset : ClientResponse :=
  {| status := 200;
     headers := [("X-RateLimit-Remaining", "0")];
     json := inr sample_account |}.

Definition resp_limited_bad_reset : ClientResponse :=
  {| status := 200;
     headers := [("x-ratelimit-remaining", "1"); ("x-ratelimit-reset", "soon")];
     json := inr sample_account |}.

Definition resp_limited_naive_reset : ClientResponse :=
  {| status := 200;
     headers := [("X-RateLimit-Remaining", "0");
                 ("X-RateLimit-Reset", sample_reset_naive)];
     json := inr sample_account |}.

Definition resp_null_id : ClientResponse :=
  {| status := 200; headers := []; json := inr (VDict {[ "id" := VNone ]}) |}.

Definition not_found : value := VDict {[ "error" := VStr "Record not found" ]}.

Definition resp_400 : ClientResponse :=
  {| status := 400; headers := []; json := inr not_found |}.

Definition resp_404 : ClientResponse :=
  {| status := 404; headers := []; json := inr not_found |}.

Definition resp_500 : ClientResponse :=
  {| status := 500; headers := []; json := inr not_found |}.

Definition sample_world (exchanges : list exchange) : world :=
  {| now := 0; wire := exchanges; log := []; _logged_in_id := VNone |}.

Definition no_uploads (self : Pleroma) (files : list Empty_set) : M (list value) :=
  ret [].

(** An upload group over files named by their paths, which has stored them
    under the given ids *)
Definition uploads_done (ids : list value) (self : Pleroma) (files : list string)
    : M (list value) :=
  ret ids.

(** ** The endpoint wrappers *)

Section Endpoints.

(** Python's [repr] of a list or a dict, and the order in which a dict
    hands out its keys, which a finite map does not record. *)
Variable py_repr : value -> string.
Variable keys_in_order : gmap string value -> list string.

(** [f'{v}'] *)
Definition py_str (v : value) : string :=
  match v with
  | VNone => "None"
  | VBool true => "True"
  | VBool false => "False"
  | VInt n => pretty n
  | VStr s => s
  | VList _ | VDict _ => py_repr v
  end.

Definition following (self : Pleroma) (account_id : value) : M value :=
  account_id <- (if truthy account_id then ret account_id
                 else _get_logged_in_id self) ;;
  request self "GET" ("/api/v1/accounts/" ++ py_str account_id ++ "/following") ∅.

Definition status_context (self : Pleroma) (id : value) : M value :=
  let id := _unpack_id id in
  request self "GET" ("/api/v1/statuses/" ++ py_str id ++ "/context") ∅.

Definition media (self : Pleroma) (id : value) : M value :=
  let id := _unpack_id id in
  request self "GET" ("/api/v1/media/" ++ py_str id) ∅.

Definition delete_status (self : Pleroma) (id : value) : M value :=
  let id := _unpack_id id in
  request self "DELETE" ("/api/v1/statuses/" ++ py_str id) ∅.

Definition favorite (self : Pleroma) (id : value) : M value :=
  let id := _unpack_id id in
  request self "POST" ("/api/v1/statuses/" ++ py_str id ++ "/favourite") ∅.

Definition unfavorite (self : Pleroma) (id : value) : M value :=
  let id := _unpack_id id in
  request self "POST" ("/api/v1/statuses/" ++ py_str id ++ "/unfavourite") ∅.

Definition repeat (self : Pleroma) (id : value) : M value :=
  let id := _unpack_id id in
  request self "POST" ("/api/v1/statuses/" ++ py_str id ++ "/reblog") ∅.

Definition un_repeat (self : Pleroma) (id : value) : M value :=
  let id := _unpack_id id in
  request self "POST" ("/api/v1/statuses/" ++ py_str id ++ "/unreblog") ∅.

Definition react (self : Pleroma) (id reaction : value) : M value :=
  let id := _unpack_id id in
  request self "PUT"
    ("/api/v1/pleroma/statuses/" ++ py_str id ++ "/reactions/" ++ py_str reaction) ∅.

Definition remove_reaction (self : Pleroma) (id reaction : value) : M value :=
  let id := _unpack_id id in
  request self "DELETE"
    ("/api/v1/pleroma/statuses/" ++ py_str id ++ "/reactions/" ++ py_str reaction) ∅.

Definition pin (self : Pleroma) (id : value) : M value :=
  let id := _unpack_id id in
  request self "POST" ("/api/v1/statuses/" ++ py_str id ++ "/pin") ∅.

Definition unpin (self : Pleroma) (id : value) : M value :=
  let id := _unpack_id id in
  request self "POST" ("/api/v1/statuses/" ++ py_str id ++ "/unpin") ∅.

(** The query of [account_statuses]; [limit] is accepted and not used. *)
Definition account_statuses_params (exclude_repeats max_id : value)
    : gmap string value :=
  let params : gmap string value :=
    {[ "exclude_reblogs" := VStr (if truthy exclude_repeats then "1" else "0") ]} in
  if negb (is_None max_id) then <[ "max_id" := _unpack_id max_id ]> params
  else params.

Definition account_statuses (self : Pleroma) (id exclude_repeats max_id limit : value)
    : M value :=
  let id := _unpack_id id in
  request self "GET" ("/api/v1/accounts/" ++ py_str id ++ "/statuses")
    {[ "params" := VDict (account_statuses_params exclude_repeats max_id) ]}.

(** An asynchronous generator that awaits: what it yields, how it ends, and
    the world it leaves. *)
Definition G : Type := world -> (list value * outcome unit) * world.

Fixpoint characters (s : string) : list value :=
  match s with
  | EmptyString => []
  | String c s' => VStr (String c EmptyString) :: characters s'
  end.

(** One turn of the loop of [account_statuses_iter] on a truthy page:
    the values [for result in results] yields, and then either the
    [results[-1]] that becomes the next [max_id] or what is raised.  A dict
    is iterated by its keys and has no key [-1]; numbers are not
    iterable. *)
Definition turn_page (results : value) : list value * (exn + value) :=
  match results with
  | VList (x :: l) => (x :: l, inr (List.last l x))
  | VStr (String c s) =>
      (characters (String c s),
       inr (List.last (characters s) (VStr (String c EmptyString))))
  | VDict d => (VStr <$> keys_in_order d, inl (KeyError "-1"))
  | _ => ([], inl TypeError)
  end.

(** The loop, unfolded [pages] times: every turn fetches a page. *)
Fixpoint fetch_pages (pages : nat) (self : Pleroma) (id exclude_repeats max_id : value)
    : G :=
  match pages with
  | O => fun w => (([], Pending), w)
  | S pages' => fun w =>
      match account_statuses self id exclude_repeats max_id VNone w with
      | (Return results, w') =>
          if truthy results then
            match turn_page results with
            | (ys, inr max_id') =>
                let '((more, r), w'') :=
                  fetch_pages pages' self id exclude_repeats max_id' w' in
                (((ys ++ more)%list, r), w'')
            | (ys, inl e) => ((ys, Raise e), w')
            end
          else (([], Return tt), w')
      | (Raise e, w') => (([], Raise e), w')
      | (Pending, w') => (([], Pending), w')
      end
  end.

(** A page that is returned has used up an exchange, so the loop is
    unfolded once more than the wire is long. *)
Definition account_statuses_iter (self : Pleroma) (id exclude_repeats max_id : value)
    : G := fun w =>
  fetch_pages (S (length (wire w))) self id exclude_repeats max_id w.

(** ** Replies *)

(** [a == b].  A bool equals the integer it stands for; lists are equal
    item by item, dicts key by key. *)
Fixpoint py_eqb (a b : value) : bool :=
  match a, b with
  | VNone, VNone => true
  | VBool x, VBool y => Bool.eqb x y
  | VBool x, VInt n | VInt n, VBool x => Z.eqb n (if x then 1 else 0)
  | VInt m, VInt n => Z.eqb m n
  | VStr s, VStr t => String.eqb s t
  | VList l, VList k =>
      (fix items (l k : list value) : bool :=
         match l, k with
         | [], [] => true
         | x :: l', y :: k' => py_eqb x y && items l' k'
         | _, _ => false
         end) l k
  | VDict d, VDict e =>
      bool_decide (dom d = dom e)
      && map_fold (fun key x acc =>
           acc && match e !! key with
                  | Some y => py_eqb x y
                  | None => false
                  end) true d
  | _, _ => false
  end.

(** Lists and dicts cannot be keys of a dict. *)
Definition hashable (v : value) : bool :=
  match v with
  | VList _ | VDict _ => false
  | _ => true
  end.

(** [for x in v] *)
Definition iterate (v : value) : exn + list value :=
  match v with
  | VList l => inr l
  | VStr s => inr (characters s)
  | VDict d => inr (VStr <$> keys_in_order d)
  | _ => inl TypeError
  end.

(** [mentioned_accounts] is a dict from account ids to account names whose
    order of insertion matters: an association list, oldest entry first.
    [id in mentioned_accounts], for a hashable [id]: *)
Definition mentioned (id : value) (mentioned_accounts : list (value * value)) : bool :=
  existsb (fun entry => py_eqb (fst entry) id) mentioned_accounts.

(** The body of the loop over [to_status['mentions']] *)
Definition mention (user_id : value) (mentioned_accounts : list (value * value))
    (account : value) : exn + list (value * value) :=
  try (getitem account "id") (fun id =>
  if negb (py_eqb id user_id) then
    if negb (hashable id) then inl TypeError
    else if negb (mentioned id mentioned_accounts) then
      try (getitem account "acct") (fun acct =>
      inr (mentioned_accounts ++ [(id, acct)])%list)
    else inr mentioned_accounts
  else inr mentioned_accounts).

Fixpoint mention_all (user_id : value) (mentioned_accounts : list (value * value))
    (accounts : list value) : exn + list (value * value) :=
  match accounts with
  | [] => inr mentioned_accounts
  | account :: rest =>
      try (mention user_id mentioned_accounts account) (fun mentioned_accounts' =>
      mention_all user_id mentioned_accounts' rest)
  end.

(** Lines 233 to 237: the author of the status first, then the accounts
    the status mentions. *)
Definition reply_mentions (user_id to_status : value) : exn + list (value * value) :=
  try (getitem to_status "account") (fun account =>
  try (getitem account "acct") (fun acct =>
  try (getitem account "id") (fun id =>
  if negb (hashable id) then inl TypeError
  else
    try (getitem to_status "mentions") (fun mentions =>
    try (iterate mentions) (fun accounts =>
    mention_all user_id [(id, acct)] accounts))))).

(** [''.join('@' + x + ' ' for x in accts)] *)
Fixpoint at_names (accts : list value) : exn + string :=
  match accts with
  | [] => inr EmptyString
  | VStr x :: rest => try (at_names rest) (fun s => inr ("@" ++ x ++ " " ++ s))
  | _ :: _ => inl TypeError
  end.

(** What [reply] hands to [post]: content, [in_reply_to_id], [cw] and
    visibility, in the order the code computes them. *)
Definition reply_args (user_id to_status content cw : value)
    : exn + (value * value * value * value) :=
  match to_status with
  | VDict d =>
      try (reply_mentions user_id to_status) (fun mentioned_accounts =>
      try (at_names (snd <$> mentioned_accounts)) (fun names =>
      try (match content with
           | VStr c => inr (VStr (names ++ c))
           | _ => inl TypeError
           end) (fun content' =>
      try (getitem to_status "visibility") (fun v =>
      let visibility := if eq_str v "public" then VStr "unlisted" else v in
      try (if negb (truthy cw) then
             match d !! "spoiler_text" with
             | Some spoiler =>
                 if truthy spoiler then
                   match spoiler with
                   | VStr sp => inr (VStr ("re: " ++ sp))
                   | _ => inl TypeError
                   end
                 else inr cw
             | None => inr cw
             end
           else inr cw) (fun cw' =>
      try (getitem to_status "id") (fun id =>
      inr (content', id, cw', visibility)))))))
  | _ => inl TypeError
  end.


(** ** The timelines *)

Definition stream_local_timeline (self : Pleroma) : generator :=
  let source := stream self "public:local" None in
  async_for (yielded source) (raised source) (fun notif => inr [notif]).

Definition stream_federated_timeline (self : Pleroma) : generator :=
  let source := stream self "public" None in
  async_for (yielded source) (raised source) (fun notif => inr [notif]).

(** ** The constructor *)

(** Stripping from the right and from the left the characters that a
    test picks out *)
Fixpoint rstrip_where (strippable : ascii -> bool) (s : string) : string :=
  match s with
  | EmptyString => EmptyString
  | String a s' =>
      match rstrip_where strippable s' with
      | EmptyString => if strippable a then EmptyString else String a EmptyString
      | r => String a r
      end
  end.

Fixpoint lstrip_where (strippable : ascii -> bool) (s : string) : string :=
  match s with
  | EmptyString => EmptyString
  | String a s' => if strippable a then lstrip_where strippable s' else s
  end.

(** [s.rstrip(c)] for a single character [c] *)
Definition rstrip (c : ascii) (s : string) : string :=
  rstrip_where (Ascii.eqb c) s.

(** The characters [str.strip()] removes, among the code points below 256 *)
Definition whitespace (c : ascii) : bool :=
  bool_decide (nat_of_ascii c ∈ [9; 10; 11; 12; 13; 28; 29; 30; 31; 32; 133; 160]%nat).

(** [s.strip()] *)
Definition strip (s : string) : string :=
  rstrip_where whitespace (lstrip_where whitespace s).

Definition __init__ (api_base_url access_token : string) : Pleroma :=
  {| api_base_url := rstrip "/" api_base_url;
     access_token := strip access_token |}.

(** ** More observations *)

Fixpoint released_count (l : list event) : nat :=
  match l with
  | [] => 0
  | Released _ :: l' => S (released_count l')
  | _ :: l' => released_count l'
  end.

(** How many of the exchanges brought a response *)
Fixpoint answered_count (l : list exchange) : nat :=
  match l with
  | [] => 0
  | Answered _ _ :: l' => S (answered_count l')
  | Failed _ _ :: l' => answered_count l'
  end.

(** The response is limited and its reset header names no instant: the
    case in which [_do_enter] raises while it holds the response. *)
Definition unusable (resp : ClientResponse) : bool :=
  limited resp && negb (bool_decide (is_Some (reset_at resp))).

Definition held_at_raise (used : list exchange) : nat :=
  match List.last used (Failed 0 EmptyString) with
  | Answered _ resp => if unusable resp then 1 else 0
  | Failed _ _ => 0
  end.

(** [paged self id exclude_repeats max_id w pages r w']: from the world
    [w], fetching page after page, each with the last status of the page
    before as [max_id], brings the non-empty lists [pages] and then ends as
    [r]: with an empty or otherwise falsy page, with an exception of the
    fetch, or with a transport that answers no more. *)
Inductive paged (self : Pleroma) (id exclude_repeats : value)
    : value -> world -> list (list value) -> outcome unit -> world -> Prop :=
| paged_end max_id w results w' :
    account_statuses self id exclude_repeats max_id VNone w = (Return results, w') ->
    truthy results = false ->
    paged self id exclude_repeats max_id w [] (Return tt) w'
| paged_raise max_id w e w' :
    account_statuses self id exclude_repeats max_id VNone w = (Raise e, w') ->
    paged self id exclude_repeats max_id w [] (Raise e) w'
| paged_pending max_id w w' :
    account_statuses self id exclude_repeats max_id VNone w = (Pending, w') ->
    paged self id exclude_repeats max_id w [] Pending w'
| paged_more max_id w x l w1 pages r w' :
    account_statuses self id exclude_repeats max_id VNone w
    = (Return (VList (x :: l)), w1) ->
    paged self id exclude_repeats (List.last l x) w1 pages r w' ->
    paged self id exclude_repeats max_id w ((x :: l) :: pages) r w'.

End Endpoints.

(** ** More sample data *)

(** The samples hold no id that is a list or a dict, and no page that is a
    dict: neither function is consulted. *)
Definition sample_repr (v : value) : string := "<object>".
Definition sample_keys (d : gmap string value) : list string := [].

Definition sample_denied (host : string) : bool := true.

Definition status_of (id : string) : value := VDict {[ "id" := VStr id ]}.

Definition resp_page (statuses : list value) : ClientResponse :=
  {| status := 200; headers := []; json := inr (VList statuses) |}.

Definition account_of (id acct : string) : value :=
  VDict {[ "id" := VStr id; "acct" := VStr acct ]}.

(** A public status by alice that mentions the user, bob, alice herself
    and bob once more *)
Definition sample_status : value :=
  VDict {[ "id" := VStr "100";
           "account" := account_of "7" "alice";
           "mentions" := VList [ account_of "42" "me"; account_of "8" "bob";
                                 account_of "7" "alice"; account_of "8" "bob" ];
           "visibility" := VStr "public";
           "spoiler_text" := VStr "cats" ]}.

Definition statuses_call (params : gmap string value) : call :=
  {| args := [VStr "GET"; VStr "https://example.test/api/v1/accounts/7/statuses"];
     kwargs := {[ "params" := VDict params ]} |}.

Definition sample_pages : list exchange :=
  [ Answered 1 (resp_page [status_of "3"; status_of "2"]);
    Answered 1 (resp_page [status_of "1"]);
    Answered 1 (resp_page []) ].

Definition sample_pages_end : world :=
  {| now := 3; wire := [];
     log := [ Sent 0 (statuses_call {[ "exclude_reblogs" := VStr "1" ]});
              Released (resp_page [status_of "3"; status_of "2"]);
              Sent 1 (statuses_call {[ "exclude_reblogs" := VStr "1";
                                       "max_id" := VStr "2" ]});
              Released (resp_page [status_of "1"]);
              Sent 2 (statuses_call {[ "exclude_reblogs" := VStr "1";
                                       "max_id" := VStr "1" ]});
              Released (resp_page []) ];
     _logged_in_id := VNone |}.

(** * Properties *)

(** ** The rate-limit context manager, one round at a time *)

Lemma limited_spec resp :
  limited resp = true <->
  headers_get "X-RateLimit-Remaining" (headers resp) = Some "0"
  \/ headers_get "X-RateLimit-Remaining" (headers resp) = Some "1".
Proof.
  unfold limited, in_0_1.
  destruct (headers_get "X-RateLimit-Remaining" (headers resp)) as [s|].
  - rewrite orb_true_iff, !String.eqb_eq. split.
    + intros [H|H]; subst; auto.
    + intros [H|H]; inversion H; auto.
  - split; [discriminate|]. intros [H|H]; discriminate.
Qed.

Lemma reset_at_spec resp :
  is_Some (reset_at resp) <->
  exists s dt,
    headers_get "X-RateLimit-Reset" (headers resp) = Some s
    /\ parsedate s = Some (Aware dt).
Proof.
  unfold reset_at.
  destruct (headers_get "X-RateLimit-Reset" (headers resp)) as [s|].
  - destruct (parsedate s) as [[t|t]|] eqn:Hparse.
    + split; eauto.
    + split; [intros [x Hx]; discriminate|].
      intros (s' & dt & [= <-] & ?). congruence.
    + split; [intros [x Hx]; discriminate|].
      intros (s' & dt & [= <-] & ?). congruence.
  - split; [intros [x Hx]; discriminate|]. intros (s' & dt & ? & ?). discriminate.
Qed.

Lemma enter_unlimited n self t d resp rest l i :
  limited resp = false ->
  enter (S n) self (Build_world t (Answered d resp :: rest) l i)
  = (Return resp, Build_world (t + Z.of_N d) rest (l ++ [Sent t self]) i).
Proof.
  intros H. cbn [enter]. unfold _do_enter, bind, http_request. cbn.
  rewrite H. reflexivity.
Qed.

Lemma enter_retry n self t d resp rest l i dt :
  limited resp = true ->
  reset_at resp = Some dt ->
  enter (S n) self (Build_world t (Answered d resp :: rest) l i)
  = enter n self
      (Build_world (Z.max (t + Z.of_N d) dt) rest
         (l ++ [Sent t self; Slept (t + Z.of_N d) (dt - (t + Z.of_N d));
                Released resp]) i).
Proof.
  unfold reset_at. intros H H0.
  destruct (headers_get "X-RateLimit-Reset" (headers resp)) as [s|] eqn:Hs;
    [|discriminate].
  destruct (parsedate s) as [[t0|t0]|] eqn:Hparse; try discriminate.
  injection H0 as ->.
  cbn [enter]. unfold _do_enter, bind, http_request. cbn.
  rewrite H, Hs. cbn. rewrite Hparse. cbn.
  unfold sleep, release, emit. cbn.
  rewrite <- !app_assoc. cbn.
  replace (t + Z.of_N d + Z.max 0 (dt - (t + Z.of_N d)))
    with (Z.max (t + Z.of_N d) dt) by lia.
  reflexivity.
Qed.

Lemma enter_reset_unknown n self t d resp rest l i :
  limited resp = true ->
  reset_at resp = None ->
  enter (S n) self (Build_world t (Answered d resp :: rest) l i)
  = (Raise (reset_failure resp),
     Build_world (t + Z.of_N d) rest (l ++ [Sent t self]) i).
Proof.
  unfold reset_at, reset_failure. intros H H0.
  cbn [enter]. unfold _do_enter, bind, http_request. cbn. rewrite H. cbn.
  destruct (headers_get "X-RateLimit-Reset" (headers resp)) as [s|];
    [|reflexivity].
  cbn. destruct (parsedate s) as [[t0|t0]|]; try discriminate; reflexivity.
Qed.

Lemma enter_pending n self t l i :
  enter (S n) self (Build_world t [] l i)
  = (Pending, Build_world t [] (l ++ [Sent t self]) i).
Proof. reflexivity. Qed.

Lemma enter_failed n self t d reason rest l i :
  enter (S n) self (Build_world t (Failed d reason :: rest) l i)
  = (Raise (ClientError reason),
     Build_world (t + Z.of_N d) rest (l ++ [Sent t self]) i).
Proof. reflexivity. Qed.

(** The ways one round on an answered exchange can go *)
Ltac round_cases resp :=
  let Hlim := fresh "Hlim" in
  let Hdt := fresh "Hdt" in
  destruct (limited resp) eqn:Hlim;
  [ destruct (reset_at resp) as [?dt|] eqn:Hdt;
    [ rewrite ?(enter_retry _ _ _ _ _ _ _ _ _ Hlim Hdt)
    | rewrite ?(enter_reset_unknown _ _ _ _ _ _ _ _ Hlim Hdt) ]
  | rewrite ?(enter_unlimited _ _ _ _ _ _ _ _ Hlim) ].

(** The unfolding of [__aenter__] never runs out: any number of rounds
    above the length of the wire gives the same run. *)
Lemma enter_enough n m self w :
  (length (wire w) < n)%nat -> (length (wire w) < m)%nat ->
  enter n self w = enter m self w.
Proof.
  revert m w. induction n as [|n IH]; intros m w Hn Hm; [lia|].
  destruct m as [|m]; [lia|].
  destruct w as [t [|[d resp|d reason] rest] l i]; cbn [wire length] in *;
    [reflexivity| |reflexivity].
  round_cases resp; try reflexivity.
  apply IH; cbn; lia.
Qed.

Lemma sent_count_app l1 l2 :
  sent_count (l1 ++ l2) = (sent_count l1 + sent_count l2)%nat.
Proof.
  induction l1 as [|[] l1 IH]; cbn; rewrite ?IH; reflexivity.
Qed.

(** Every unfolded round asks the transport at least once, and the log
    only grows. *)
Lemma enter_sends n self w :
  (sent_count (log w) < sent_count (log (snd (enter (S n) self w))))%nat.
Proof.
  revert w. induction n as [|n IH]; intros w;
    destruct w as [t [|[d resp|d reason] rest] l i];
    try (cbn; rewrite sent_count_app; cbn; lia);
    cbn [log]; round_cases resp;
    try (cbn; rewrite sent_count_app; cbn; lia).
  etransitivity; [|apply IH]. cbn. rewrite sent_count_app. cbn. lia.
Qed.

(** The rate-limit layer does not touch the cached account id. *)
Lemma enter_keeps_id n self w :
  _logged_in_id (snd (enter n self w)) = _logged_in_id w.
Proof.
  revert w. induction n as [|n IH]; intros w; [reflexivity|].
  destruct w as [t [|[d resp|d reason] rest] l i];
    [reflexivity| |reflexivity].
  round_cases resp; try reflexivity.
  rewrite IH. reflexivity.
Qed.

Lemma aenter_unfold self w :
  __aenter__ self w = enter (S (length (wire w))) self w.
Proof. reflexivity. Qed.

(** ** Which responses are retried *)

(** C1, as the code has it.  The transport is asked a second time after a
    response if and only if the response's [X-RateLimit-Remaining] header
    reads 0 or 1 and its [X-RateLimit-Reset] header is present and parses
    to an instant.  When the remaining header is absent or reads anything
    else, the response is returned at once: the only thing logged is the
    request, nothing is slept, and the clock has moved by the delay of the
    exchange alone. *)
Theorem retried_iff_limited_and_reset_known self t d resp rest l i :
  ((sent_count l + 2 <=
      sent_count (log (snd (__aenter__ self
                              (Build_world t (Answered d resp :: rest) l i)))))%nat
    <-> ((headers_get "X-RateLimit-Remaining" (headers resp) = Some "0"
          \/ headers_get "X-RateLimit-Remaining" (headers resp) = Some "1")
         /\ exists s dt,
              headers_get "X-RateLimit-Reset" (headers resp) = Some s
              /\ parsedate s = Some (Aware dt)))
  /\ (headers_get "X-RateLimit-Remaining" (headers resp) <> Some "0" ->
      headers_get "X-RateLimit-Remaining" (headers resp) <> Some "1" ->
      __aenter__ self (Build_world t (Answered d resp :: rest) l i)
      = (Return resp, Build_world (t + Z.of_N d) rest (l ++ [Sent t self]) i)).
Proof.
  rewrite <- limited_spec, <- reset_at_spec, aenter_unfold. cbn [wire length].
  split.
  - round_cases resp.
    + split; [intros _; split; eauto|intros _].
      pose proof (enter_sends (length rest) self
        (Build_world (Z.max (t + Z.of_N d) dt) rest
           (l ++ [Sent t self; Slept (t + Z.of_N d) (dt - (t + Z.of_N d));
                  Released resp]) i)) as Hs.
      cbn [log] in Hs. rewrite sent_count_app in Hs. cbn [sent_count] in Hs. lia.
    + cbn. rewrite sent_count_app. cbn.
      split; [lia|]. intros [_ [x Hx]]. discriminate.
    + cbn. rewrite sent_count_app. cbn.
      split; [lia|]. intros [? _]. discriminate.
  - intros H0 H1. apply enter_unlimited.
    destruct (limited resp) eqn:Hlim; [|reflexivity].
    apply limited_spec in Hlim. tauto.
Qed.

(** ** A reset header that cannot be used *)

(** C4, as the code has it.  A response whose remaining header reads 0 or 1
    but whose reset header is missing makes [request] fail with the
    [KeyError] of the header lookup; one whose reset header is not a date
    makes it fail with the date parser's own error.  Neither is a
    [BadResponse].  Nothing is slept, released or sent again. *)
Theorem unusable_reset_raises self method path kw host t d resp rest l i :
  url_host (api_base_url self) = Some host ->
  blocklisted host = false ->
  headers_get "X-RateLimit-Remaining" (headers resp) = Some "0"
  \/ headers_get "X-RateLimit-Remaining" (headers resp) = Some "1" ->
  (headers_get "X-RateLimit-Reset" (headers resp) = None ->
   request self method path kw (Build_world t (Answered d resp :: rest) l i)
   = (Raise (KeyError "X-RateLimit-Reset"),
      Build_world (t + Z.of_N d) rest
        (l ++ [Sent t {| args := [VStr method; VStr (api_base_url self ++ path)];
                         kwargs := kw |}]) i))
  /\ (forall s,
      headers_get "X-RateLimit-Reset" (headers resp) = Some s ->
      parsedate s = None ->
      request self method path kw (Build_world t (Answered d resp :: rest) l i)
      = (Raise ParserError,
         Build_world (t + Z.of_N d) rest
           (l ++ [Sent t {| args := [VStr method; VStr (api_base_url self ++ path)];
                            kwargs := kw |}]) i)).
Proof.
  intros Hhost Hblock Hlim. apply limited_spec in Hlim.
  unfold request. rewrite Hhost, Hblock. unfold bind.
  rewrite aenter_unfold. cbn [wire length]. split.
  - intros Hnone. rewrite enter_reset_unknown; [|assumption|].
    + unfold reset_failure. rewrite Hnone. reflexivity.
    + unfold reset_at. rewrite Hnone. reflexivity.
  - intros s Hs Hbad. rewrite enter_reset_unknown; [|assumption|].
    + unfold reset_failure. rewrite Hs, Hbad. reflexivity.
    + unfold reset_at. rewrite Hs, Hbad. reflexivity.
Qed.

(** ** Chains of limited responses *)

Lemma rounds_sent_self self t rounds t0 c :
  In (Sent t0 c) (rounds_log self t rounds) -> c = self.
Proof.
  revert t. induction rounds as [|[[d resp] dt] more IH]; intros t; cbn.
  - tauto.
  - intros [H|[H|[H|H]]]; try discriminate; [congruence|eauto].
Qed.

Lemma rounds_end_ge t rounds :
  Forall (fun round => snd round <= rounds_end t rounds) rounds
  /\ t <= rounds_end t rounds.
Proof.
  revert t. induction rounds as [|[[d resp] dt] more IH]; intros t; cbn.
  - split; [constructor|lia].
  - destruct (IH (Z.max (t + Z.of_N d) dt)) as [IH1 IH2].
    split; [constructor; [cbn; lia|assumption]|lia].
Qed.

(** C2, as the code has it.  For a response whose remaining header reads 0
    or 1 and whose reset header names an instant, the code sleeps, still
    holding the response, until the clock is at or past that instant, then
    releases the response, then enters again with the very same arguments.
    Over a run of such responses followed by a response that is not
    limited, the last one is returned; the log lists, per limited response,
    request, sleep and release in that order; every request in it carries
    the original arguments; and the final request goes out no earlier than
    any of the instants named. *)
Theorem limited_rounds_then_return self rounds d u rest t l i :
  Forall (fun round => limited (snd (fst round)) = true
                       /\ reset_at (snd (fst round)) = Some (snd round)) rounds ->
  limited u = false ->
  __aenter__ self (Build_world t (map answered rounds ++ Answered d u :: rest) l i)
  = (Return u,
     Build_world (rounds_end t rounds + Z.of_N d) rest
       (l ++ rounds_log self t rounds ++ [Sent (rounds_end t rounds) self]) i)
  /\ (forall t0 c,
      In (Sent t0 c) (rounds_log self t rounds ++ [Sent (rounds_end t rounds) self]) ->
      c = self)
  /\ Forall (fun round => snd round <= rounds_end t rounds) rounds.
Proof.
  intros Hrounds Hu. split; [|split].
  - revert t l. induction Hrounds as [|[[d0 resp] dt] more [Hlim Hdt] _ IH];
      intros t l; rewrite aenter_unfold; cbn [map app wire length].
    + rewrite enter_unlimited by assumption. reflexivity.
    + cbn in Hlim, Hdt. change (answered (d0, resp, dt)) with (Answered d0 resp).
      rewrite (enter_retry _ _ _ _ _ _ _ _ dt) by assumption.
      etransitivity; [exact (IH _ _)|]. cbn [rounds_end rounds_log].
      rewrite <- !app_assoc. reflexivity.
  - intros t0 c Hin. apply in_app_or in Hin. destruct Hin as [Hin|[Hin|[]]].
    + eapply rounds_sent_self; eassumption.
    + congruence.
  - apply rounds_end_ge.
Qed.

(** ** Statuses and outcomes *)

Lemma request_after_enter self method path kw host w resp w' :
  url_host (api_base_url self) = Some host ->
  blocklisted host = false ->
  __aenter__ {| args := [VStr method; VStr (api_base_url self ++ path)];
                kwargs := kw |} w = (Return resp, w') ->
  request self method path kw w
  = async_with resp
      (if (status resp =? 400)%Z then
         body <- lift (json resp) ;;
         err <- lift (getitem body "error") ;;
         raise (BadRequest err)
       else if (status resp =? 500)%Z then
         body <- lift (json resp) ;;
         raise (BadResponse body)
       else lift (json resp)) w'.
Proof.
  intros Hhost Hblock Henter. unfold request.
  rewrite Hhost, Hblock. unfold bind at 1. rewrite Henter. reflexivity.
Qed.

(** C6.  When the exchange completes with a response of status 400 whose
    JSON body is an object with an [error] field, [request] raises
    [BadRequest] with the value of that field; when it completes with a
    response of status 500, [request] raises [BadResponse] with the whole
    JSON body.  Either way the response has been released. *)
Theorem status_400_and_500_raise self method path kw host w resp w' :
  url_host (api_base_url self) = Some host ->
  blocklisted host = false ->
  __aenter__ {| args := [VStr method; VStr (api_base_url self ++ path)];
                kwargs := kw |} w = (Return resp, w') ->
  (forall fields err,
     status resp = 400 ->
     json resp = inr (VDict fields) ->
     fields !! "error" = Some err ->
     request self method path kw w
     = (Raise (BadRequest err), emit (Released resp) w'))
  /\ (forall body,
     status resp = 500 ->
     json resp = inr body ->
     request self method path kw w
     = (Raise (BadResponse body), emit (Released resp) w')).
Proof.
  intros Hhost Hblock Henter.
  rewrite (request_after_enter _ _ _ _ _ _ _ _ Hhost Hblock Henter).
  split.
  - intros fields err Hst Hjson Herr. unfold async_with, bind.
    rewrite Hst, Hjson. cbn. rewrite Herr. reflexivity.
  - intros body Hst Hjson. unfold async_with, bind.
    rewrite Hst, Hjson. reflexivity.
Qed.

(** C7.  When the exchange completes with a response whose status is
    neither 400 nor 500, whatever else it is, [request] returns the
    response's JSON body and raises nothing. *)
Theorem other_status_returns_body self method path kw host w resp w' body :
  url_host (api_base_url self) = Some host ->
  blocklisted host = false ->
  __aenter__ {| args := [VStr method; VStr (api_base_url self ++ path)];
                kwargs := kw |} w = (Return resp, w') ->
  status resp <> 400 ->
  status resp <> 500 ->
  json resp = inr body ->
  request self method path kw w = (Return body, emit (Released resp) w').
Proof.
  intros Hhost Hblock Henter H400 H500 Hjson.
  rewrite (request_after_enter _ _ _ _ _ _ _ _ Hhost Hblock Henter).
  apply Z.eqb_neq in H400, H500. unfold async_with.
  rewrite H400, H500, Hjson. reflexivity.
Qed.

(** ** The cached account id *)

Lemma request_keeps_id self method path kw w :
  _logged_in_id (snd (request self method path kw w)) = _logged_in_id w.
Proof.
  unfold request.
  destruct (url_host (api_base_url self)) as [host|]; [|reflexivity].
  destruct (blocklisted host); [reflexivity|].
  unfold bind at 1.
  pose proof (enter_keeps_id (S (length (wire w)))
    {| args := [VStr method; VStr (api_base_url self ++ path)]; kwargs := kw |} w)
    as Hid.
  rewrite <- aenter_unfold in Hid.
  destruct (__aenter__ _ w) as [[resp|e|] w']; cbn [snd] in *; try assumption.
  rewrite <- Hid. unfold async_with, bind, lift, raise, ret.
  repeat case_match; simplify_eq; reflexivity.
Qed.

(** C8, as the code has it.  A call made while the cache holds a value
    other than [None] returns that value and leaves the world as it is: no
    request goes out and the cache keeps its value; requests made in
    between do not touch the cache either.  A call made while the cache is
    unset asks [verify_credentials] once.  If the answer is an object with
    an [id], that id is stored and returned, and when it is not [None] the
    next call returns it again from the cache.  If the answer is an object
    without an [id], the call raises [LoginFailed] with the answer, in the
    world that this one request left, and the cache is still unset. *)
Theorem logged_in_id_memoised self w :
  (_logged_in_id w <> VNone ->
   _get_logged_in_id self w = (Return (_logged_in_id w), w))
  /\ (forall method path kw,
      _logged_in_id (snd (request self method path kw w)) = _logged_in_id w)
  /\ (_logged_in_id w = VNone ->
      forall fields w',
        me self w = (Return (VDict fields), w') ->
        (forall id,
           fields !! "id" = Some id ->
           _get_logged_in_id self w
           = (Return id, Build_world (now w') (wire w') (log w') id)
           /\ (id <> VNone ->
               _get_logged_in_id self (Build_world (now w') (wire w') (log w') id)
               = (Return id, Build_world (now w') (wire w') (log w') id)))
        /\ (fields !! "id" = None ->
            _get_logged_in_id self w = (Raise (LoginFailed (VDict fields)), w')
            /\ _logged_in_id w' = VNone)).
Proof.
  split; [|split].
  - intros Hset. unfold _get_logged_in_id.
    destruct (_logged_in_id w); try reflexivity. congruence.
  - intros. apply request_keeps_id.
  - intros Hunset fields w' Hme. split.
    + intros id Hid. split.
      * unfold _get_logged_in_id. rewrite Hunset. cbn [is_None negb].
        unfold bind at 1. rewrite Hme. cbn [getitem]. rewrite Hid. reflexivity.
      * intros Hne. unfold _get_logged_in_id. cbn [_logged_in_id].
        destruct id; try reflexivity. congruence.
    + intros Hid. split.
      * unfold _get_logged_in_id. rewrite Hunset. cbn [is_None negb].
        unfold bind at 1. rewrite Hme. cbn [getitem]. rewrite Hid. reflexivity.
      * rewrite <- Hunset. unfold me, verify_credentials in Hme.
        pose proof (request_keeps_id self "GET"
          "/api/v1/accounts/verify_credentials" ∅ w) as Hkeep.
        rewrite Hme in Hkeep. exact Hkeep.
Qed.

(** ** The payload of a post *)

(** Where the form fields of [post] come from, for every call that passes
    the check of the visibility: without files they are built from the
    arguments alone, and with files the ids the upload group returns are
    added to them. *)
Lemma post_hands_over self content in_reply_to_id cw visibility files w :
  invalid_visibility visibility = inr false ->
  post self content in_reply_to_id cw visibility files w
  = match files with
    | Some (f :: fs) =>
        (files_uploaded <- upload_all self (f :: fs) ;;
         request self "POST" "/api/v1/statuses"
           {[ "data" := VDict (post_data content in_reply_to_id cw visibility
                                 (Some files_uploaded)) ]}) w
    | _ =>
        request self "POST" "/api/v1/statuses"
          {[ "data" := VDict (post_data content in_reply_to_id cw visibility None) ]} w
    end.
Proof.
  intros Hvalid. unfold post. unfold bind at 1. rewrite Hvalid. cbn [lift ret].
  destruct files as [[|f fs]|]; reflexivity.
Qed.

(** C10.  The form fields of a post hold [spoiler_text] if and only if
    [cw] is truthy, and then it is [cw] itself; with the empty string for
    [cw] the fields are those sent with [None], without [spoiler_text].
    And these are the fields of every call of [post]: without files to
    upload, [post] is the request that carries them; with files, once the
    uploads have returned their ids, [post] is the request that carries
    them with the ids added; when the uploads raise or the transport
    answers them no more, [post] ends like them and posts nothing; and
    when the visibility does not pass the check, [post] raises in the
    world it was called in. *)
Theorem spoiler_text_iff_cw_truthy content in_reply_to_id cw visibility files_uploaded :
  (is_Some (post_data content in_reply_to_id cw visibility files_uploaded
            !! "spoiler_text") <-> truthy cw = true)
  /\ post_data content in_reply_to_id cw visibility files_uploaded !! "spoiler_text"
     = (if truthy cw then Some cw else None)
  /\ post_data content in_reply_to_id (VStr EmptyString) visibility files_uploaded
     = post_data content in_reply_to_id VNone visibility files_uploaded
  /\ post_data content in_reply_to_id VNone visibility files_uploaded
     !! "spoiler_text" = None
  /\ (forall self files w,
      invalid_visibility visibility = inr false ->
      files = None \/ files = Some [] ->
      post self content in_reply_to_id cw visibility files w
      = request self "POST" "/api/v1/statuses"
          {[ "data" := VDict (post_data content in_reply_to_id cw visibility None) ]} w)
  /\ (forall self f fs w ids w',
      invalid_visibility visibility = inr false ->
      upload_all self (f :: fs) w = (Return ids, w') ->
      post self content in_reply_to_id cw visibility (Some (f :: fs)) w
      = request self "POST" "/api/v1/statuses"
          {[ "data" := VDict (post_data content in_reply_to_id cw visibility
                                (Some ids)) ]} w')
  /\ (forall self f fs w w',
      invalid_visibility visibility = inr false ->
      (forall e, upload_all self (f :: fs) w = (Raise e, w') ->
                 post self content in_reply_to_id cw visibility (Some (f :: fs)) w
                 = (Raise e, w'))
      /\ (upload_all self (f :: fs) w = (Pending, w') ->
          post self content in_reply_to_id cw visibility (Some (f :: fs)) w
          = (Pending, w')))
  /\ (forall self files w,
      invalid_visibility visibility <> inr false ->
      exists e, post self content in_reply_to_id cw visibility files w = (Raise e, w)).
Proof.
  assert (Hlookup : forall cw',
    post_data content in_reply_to_id cw' visibility files_uploaded !! "spoiler_text"
    = (if truthy cw' then Some cw' else None)).
  { intros cw'. unfold post_data.
    destruct files_uploaded, (truthy (_unpack_id in_reply_to_id)),
      (negb (is_None visibility)), (truthy cw'); simplify_map_eq; reflexivity. }
  split; [|split; [|split; [|split; [|split; [|split; [|split]]]]]].
  - rewrite Hlookup. destruct (truthy cw); split; intros H;
      try reflexivity; try discriminate; eauto.
    destruct H as [? H]. discriminate.
  - apply Hlookup.
  - reflexivity.
  - apply (Hlookup VNone).
  - intros self files w Hvalid Hfiles. rewrite post_hands_over by assumption.
    destruct Hfiles as [-> | ->]; reflexivity.
  - intros self f fs w ids w' Hvalid Hup. rewrite post_hands_over by assumption.
    unfold bind. rewrite Hup. reflexivity.
  - intros self f fs w w' Hvalid. split.
    + intros e Hup. rewrite post_hands_over by assumption.
      unfold bind. rewrite Hup. reflexivity.
    + intros Hup. rewrite post_hands_over by assumption.
      unfold bind. rewrite Hup. reflexivity.
  - intros self files w Hinvalid. unfold post. unfold bind at 1.
    destruct (invalid_visibility visibility) as [e|[|]]; cbn [lift raise ret].
    + exists e. reflexivity.
    + eexists. reflexivity.
    + congruence.
Qed.

(** ** The streaming dispatcher *)

Lemma eq_str_true s : eq_str (VStr s) s = true.
Proof. cbn. apply String.eqb_refl. Qed.

Lemma eq_str_false v s : v <> VStr s -> eq_str v s = false.
Proof.
  intros Hne. destruct v; try reflexivity. cbn.
  apply String.eqb_neq. congruence.
Qed.

Lemma eq_str_spec v s : eq_str v s = true <-> v = VStr s.
Proof.
  split; [|intros ->; apply eq_str_true].
  destruct v; cbn; try discriminate. intros H. apply String.eqb_eq in H. congruence.
Qed.

Lemma wanted_test target ev :
  wanted target ev <->
  match target with None => true | Some t => eq_str ev t end = true.
Proof.
  destruct target as [t|]; cbn; [|tauto]. symmetry. apply eq_str_spec.
Qed.

Lemma on_message_dispatched target msg out :
  dispatched target msg out -> on_message target msg = inr out.
Proof.
  destruct 1 as [text fields Htext Hev
                |text fields ev payload inner Htext Hev Hne Hwant Hpay Hinner
                |text fields ev Htext Hev Hne Hwant
                |msg Htype]; unfold on_message; cbn.
  - rewrite Htext. cbn. rewrite Hev. cbn. reflexivity.
  - rewrite Htext. cbn. rewrite Hev. cbn. rewrite (eq_str_false _ _ Hne).
    apply wanted_test in Hwant. rewrite Hwant. cbn.
    rewrite Hpay. cbn. rewrite Hinner. reflexivity.
  - rewrite Htext. cbn. rewrite Hev. cbn. rewrite (eq_str_false _ _ Hne).
    destruct (match target with None => true | Some t => eq_str ev t end) eqn:Htest;
      [|reflexivity].
    apply wanted_test in Htest. contradiction.
  - destruct (type msg); try reflexivity. contradiction.
Qed.

Lemma on_message_undecodable target msg :
  undecodable target msg -> on_message target msg = inl JSONDecodeError.
Proof.
  destruct 1 as [text Htext|text fields ev payload Htext Hev Hne Hwant Hpay Hbad];
    unfold on_message; cbn.
  - rewrite Htext. reflexivity.
  - rewrite Htext. cbn. rewrite Hev. cbn. rewrite (eq_str_false _ _ Hne).
    apply wanted_test in Hwant. rewrite Hwant. cbn.
    rewrite Hpay. cbn. rewrite Hbad. reflexivity.
Qed.

(** The loop body raises nothing but what decoding and subscripting raise. *)
Lemma on_message_raises target msg e :
  on_message target msg = inl e ->
  e = JSONDecodeError \/ e = TypeError \/ exists k, e = KeyError k.
Proof.
  unfold on_message, try, loads, getitem.
  repeat case_match; intros; simplify_eq; eauto.
Qed.

Lemma async_for_dispatched target frames outs ended :
  Forall2 (dispatched target) frames outs ->
  async_for frames ended (on_message target)
  = {| yielded := concat outs; raised := ended |}.
Proof.
  induction 1 as [|msg out frames outs Hmsg _ IH]; cbn; [reflexivity|].
  rewrite (on_message_dispatched _ _ _ Hmsg), IH. reflexivity.
Qed.

Lemma async_for_app {A} (xs ys : list A) ended body outs :
  Forall2 (fun x out => body x = inr out) xs outs ->
  async_for (xs ++ ys) ended body
  = {| yielded := concat outs ++ yielded (async_for ys ended body);
       raised := raised (async_for ys ended body) |}.
Proof.
  induction 1 as [|x out xs outs Hx _ IH]; cbn.
  - destruct (async_for ys ended body). reflexivity.
  - rewrite Hx, IH. cbn. rewrite app_assoc. reflexivity.
Qed.

(** C3.  When every frame of the connection decodes, [stream] yields, frame
    by frame and in the order of arrival: the whole outer object for a
    [filters_changed] event; the document held by the payload string when
    no event type was asked for or the frame's event is the one asked for;
    and nothing for any other frame. *)
Theorem stream_dispatches_in_arrival_order self stream_name target outs :
  Forall2 (dispatched target) (ws_connect (streaming_url self stream_name)) outs ->
  stream self stream_name target = {| yielded := concat outs; raised := None |}.
Proof.
  intros Hall. unfold stream. apply async_for_dispatched. assumption.
Qed.

(** C5, as the code has it.  A text frame whose outer text is not JSON, or
    whose payload is needed and is not JSON, ends the stream with the
    decoder's [JSONDecodeError]: the frames before it have been yielded, it
    is not skipped, and nothing after it is looked at.  No stream ever
    ends with [BadResponse]. *)
Theorem undecodable_frame_ends_stream self stream_name target :
  (forall good outs bad later,
     ws_connect (streaming_url self stream_name) = (good ++ bad :: later)%list ->
     Forall2 (dispatched target) good outs ->
     undecodable target bad ->
     stream self stream_name target
     = {| yielded := concat outs; raised := Some JSONDecodeError |})
  /\ (forall e arg,
     raised (stream self stream_name target) = Some e -> e <> BadResponse arg).
Proof.
  split.
  - intros good outs bad later Hframes Hgood Hbad. unfold stream.
    rewrite Hframes, (async_for_app good (bad :: later) None _ outs).
    + cbn. rewrite (on_message_undecodable _ _ Hbad). cbn.
      rewrite app_nil_r. reflexivity.
    + eapply Forall2_impl; [exact Hgood|]. apply on_message_dispatched.
  - unfold stream. generalize (ws_connect (streaming_url self stream_name)).
    intros frames. induction frames as [|msg frames IH]; cbn; [discriminate|].
    destruct (on_message target msg) as [e'|out] eqn:Hmsg; cbn.
    + intros e arg [= <-] ->. apply on_message_raises in Hmsg.
      destruct Hmsg as [?|[?|[? ?]]]; discriminate.
    + exact IH.
Qed.

(** ** The derived subscriptions *)

Lemma async_for_yield_each ys ended :
  async_for ys ended (fun notif => inr [notif]) = {| yielded := ys; raised := ended |}.
Proof.
  induction ys as [|y ys IH]; cbn; [reflexivity|]. rewrite IH. reflexivity.
Qed.

(** [stream_notifications] yields what the stream it is built on yields. *)
Lemma stream_notifications_is_stream self :
  stream_notifications self = stream self "user:notification" (Some "notification").
Proof.
  unfold stream_notifications. rewrite async_for_yield_each.
  destruct (stream self "user:notification" (Some "notification")). reflexivity.
Qed.

Lemma filter_mentions_typed ys ended :
  Forall (fun notif => exists t, getitem notif "type" = inr t) ys ->
  async_for ys ended (fun notif =>
    try (getitem notif "type") (fun t =>
    if eq_str t "mention" then inr [notif] else inr []))
  = {| yielded := List.filter is_mention ys; raised := ended |}.
Proof.
  induction 1 as [|y ys [t Ht] _ IH]; cbn; [reflexivity|].
  unfold is_mention. rewrite Ht, IH. cbn.
  destruct (eq_str t "mention"); reflexivity.
Qed.

(** X16.  As long as every notification that arrives has a [type],
    [stream_mentions] is the filter of [stream_notifications]: it yields
    those of type [mention], in the same order, and ends the same way. *)
Lemma stream_mentions_of_typed self :
  Forall (fun notif => exists t, getitem notif "type" = inr t)
    (yielded (stream_notifications self)) ->
  stream_mentions self
  = {| yielded := List.filter is_mention (yielded (stream_notifications self));
       raised := raised (stream_notifications self) |}.
Proof.
  intros Htyped. unfold stream_mentions. apply filter_mentions_typed. assumption.
Qed.

(** ** What a request does to the world *)

Lemma released_count_app l1 l2 :
  released_count (l1 ++ l2) = (released_count l1 + released_count l2)%nat.
Proof.
  induction l1 as [|[] l1 IH]; cbn; rewrite ?IH; reflexivity.
Qed.

Lemma held_after_retry d resp used :
  unusable resp = false ->
  held_at_raise (Answered d resp :: used) = held_at_raise used.
Proof.
  intros Hresp. unfold held_at_raise. destruct used as [|x used]; cbn.
  - rewrite Hresp. reflexivity.
  - reflexivity.
Qed.

(** One run of the rate-limit layer, told by what it used of the wire and
    what it added to the log. *)
Lemma enter_accounts n self w :
  exists used added,
    wire w = (used ++ wire (snd (enter n self w)))%list
    /\ log (snd (enter n self w)) = (log w ++ added)%list
    /\ now w <= now (snd (enter n self w))
    /\ Forall (fun e => forall t c, e = Sent t c -> c = self) added
    /\ match fst (enter n self w) with
       | Return r =>
           answered_count used = S (released_count added)
           /\ limited r = false
           /\ exists used0 d, used = (used0 ++ [Answered d r])%list
       | Raise _ => answered_count used
                    = (released_count added + held_at_raise used)%nat
       | Pending => answered_count used = released_count added
       end.
Proof.
  revert w. induction n as [|n IH]; intros w.
  { exists [], []. cbn. rewrite app_nil_r. repeat split; [lia|constructor]. }
  destruct w as [t [|[d resp|d reason] rest] l i].
  - exists [], [Sent t self]. cbn. repeat split; try lia.
    constructor; [|constructor]. intros t0 c [= _ <-]. reflexivity.
  - round_cases resp.
    + destruct (IH (Build_world (Z.max (t + Z.of_N d) dt) rest
             (l ++ [Sent t self; Slept (t + Z.of_N d) (dt - (t + Z.of_N d));
                    Released resp]) i)) as (used & added & Hw & Hl & Ht & Hs & Hr).
      exists (Answered d resp :: used),
        ([Sent t self; Slept (t + Z.of_N d) (dt - (t + Z.of_N d)); Released resp]
           ++ added)%list.
      cbn [wire log now] in *. split; [cbn; congruence|].
      split; [rewrite Hl, <- app_assoc; reflexivity|].
      split; [lia|]. split.
      * repeat constructor; try discriminate; [|exact Hs].
        intros t0 c [= _ <-]. reflexivity.
      * assert (Hu : unusable resp = false).
        { unfold unusable. rewrite Hdt. apply andb_false_iff. right.
          apply negb_false_iff, bool_decide_eq_true_2. eauto. }
        destruct (fst (enter n self _)) as [r|e|].
        -- destruct Hr as (Hc & Hlim' & used0 & d0 & ->).
           split; [|split; [assumption|]].
           ++ cbn in *. lia.
           ++ exists (Answered d resp :: used0), d0. reflexivity.
        -- rewrite held_after_retry by assumption.
           cbn in *. lia.
        -- cbn in *. lia.
    + exists [Answered d resp], [Sent t self]. cbn. repeat split; try lia.
      * constructor; [|constructor]. intros t0 c [= _ <-]. reflexivity.
      * unfold held_at_raise, unusable. cbn. rewrite Hlim, Hdt. reflexivity.
    + exists [Answered d resp], [Sent t self]. cbn.
      split; [reflexivity|]. split; [reflexivity|]. split; [lia|]. split.
      * constructor; [|constructor]. intros t0 c [= _ <-]. reflexivity.
      * split; [reflexivity|]. split; [assumption|]. exists [], d. reflexivity.
  - exists [Failed d reason], [Sent t self]. cbn. repeat split; try lia.
    constructor; [|constructor]. intros t0 c [= _ <-]. reflexivity.
Qed.

Lemma held_at_last used d resp :
  held_at_raise (used ++ [Answered d resp]) = if unusable resp then 1%nat else 0%nat.
Proof. unfold held_at_raise. rewrite last_last. reflexivity. Qed.

Lemma request_accounts self method path kw w :
  exists used added,
    wire w = (used ++ wire (snd (request self method path kw w)))%list
    /\ log (snd (request self method path kw w)) = (log w ++ added)%list
    /\ now w <= now (snd (request self method path kw w))
    /\ Forall (fun e => forall t c, e = Sent t c ->
                 c = {| args := [VStr method; VStr (api_base_url self ++ path)];
                        kwargs := kw |}) added
    /\ answered_count used
       = (released_count added
          + match fst (request self method path kw w) with
            | Raise _ => held_at_raise used
            | _ => 0
            end)%nat
    /\ (forall v, fst (request self method path kw w) = Return v -> used <> []).
Proof.
  destruct (request self method path kw w) as [r w'] eqn:Hreq. cbn [fst snd].
  unfold request in Hreq.
  destruct (url_host (api_base_url self)) as [host|];
    [destruct (blocklisted host)|];
    try (injection Hreq as <- <-; exists [], []; cbn; rewrite app_nil_r;
         repeat split; [lia|constructor|discriminate]).
  unfold bind at 1 in Hreq. rewrite aenter_unfold in Hreq.
  destruct (enter_accounts (S (length (wire w)))
    {| args := [VStr method; VStr (api_base_url self ++ path)]; kwargs := kw |} w)
    as (used & added & Hw & Hl & Ht & Hs & Hr).
  destruct (enter _ _ w) as [[resp|e|] w1]; cbn [fst snd] in *.
  - destruct Hr as (Hc & Hlim & used0 & d & ->).
    assert (Hbody : w' = emit (Released resp) w1 /\ r <> Pending).
    { unfold async_with, bind, lift, raise, ret in Hreq.
      repeat case_match; simplify_eq; split; try reflexivity; discriminate. }
    destruct Hbody as [-> Hr].
    exists (used0 ++ [Answered d resp])%list, (added ++ [Released resp])%list.
    cbn [fst snd emit wire log now].
    split; [assumption|]. split; [rewrite Hl, app_assoc; reflexivity|].
    split; [assumption|]. split.
    + apply Forall_app. split; [assumption|].
      constructor; [|constructor]. discriminate.
    + split; [|intros _ _ [? ?]%app_eq_nil; discriminate].
      rewrite released_count_app, held_at_last. unfold unusable. rewrite Hlim.
      cbn. destruct r; lia.
  - injection Hreq as <- <-. exists used, added.
    repeat split; try assumption. discriminate.
  - injection Hreq as <- <-. exists used, added.
    repeat split; try assumption; [lia|discriminate].
Qed.

(** X1.  Whatever the transport does, a call of [request] only adds to the
    log, only uses up exchanges from the front of the wire, never turns the
    clock back, leaves the cached account id alone, and every request it
    sends, the first and every retry, carries the method, the URL and the
    keyword arguments it was called with. *)
Theorem request_only_moves_forward self method path kw w :
  (exists used, wire w = (used ++ wire (snd (request self method path kw w)))%list)
  /\ (exists added,
        log (snd (request self method path kw w)) = (log w ++ added)%list
        /\ forall t c, In (Sent t c) added ->
             c = {| args := [VStr method; VStr (api_base_url self ++ path)];
                    kwargs := kw |})
  /\ now w <= now (snd (request self method path kw w))
  /\ _logged_in_id (snd (request self method path kw w)) = _logged_in_id w.
Proof.
  destruct (request_accounts self method path kw w)
    as (used & added & Hw & Hl & Ht & Hs & _).
  split; [eauto|]. split; [|split; [assumption|apply request_keeps_id]].
  exists added. split; [assumption|]. intros t c Hin.
  rewrite Forall_forall in Hs. eapply Hs; [|reflexivity].
  apply list_elem_of_In. exact Hin.
Qed.

(** X2.  Over a call of [request], the responses received and the
    responses released are equally many, with one exception: when the call
    raises because the last response was limited and its reset header
    names no instant, that response is still held. *)
Theorem request_releases_what_it_received self method path kw w :
  exists used added,
    wire w = (used ++ wire (snd (request self method path kw w)))%list
    /\ log (snd (request self method path kw w)) = (log w ++ added)%list
    /\ answered_count used
       = (released_count added
          + match fst (request self method path kw w) with
            | Raise _ => held_at_raise used
            | _ => 0
            end)%nat.
Proof.
  destruct (request_accounts self method path kw w)
    as (used & added & Hw & Hl & _ & _ & Hc & _).
  exists used, added. auto.
Qed.

(** A call that returns has used up at least one exchange. *)
Lemma request_return_consumes self method path kw w v w' :
  request self method path kw w = (Return v, w') ->
  (length (wire w') < length (wire w))%nat.
Proof.
  intros Hrun.
  destruct (request_accounts self method path kw w)
    as (used & added & Hw & _ & _ & _ & _ & Hne).
  rewrite Hrun in *. cbn [fst snd] in *. rewrite Hw, length_app.
  destruct used; [exfalso; eapply Hne; reflexivity|]. cbn. lia.
Qed.

(** A call made while the cache holds an id is answered from the cache. *)
Lemma logged_in_id_cached self w :
  _logged_in_id w <> VNone ->
  _get_logged_in_id self w = (Return (_logged_in_id w), w).
Proof.
  intros Hset. unfold _get_logged_in_id.
  destruct (_logged_in_id w); try reflexivity. congruence.
Qed.

Section EndpointProperties.

Variable py_repr : value -> string.
Variable keys_in_order : gmap string value -> list string.

(** ** The endpoint wrappers *)

Lemma unpack_id_of_object d id :
  d !! "id" = Some id -> _unpack_id (VDict d) = id.
Proof. intros Hid. cbn. rewrite Hid. reflexivity. Qed.

(** X3.  Every wrapper that takes a status, a medium or an account takes
    the object in place of its id: called with a dict that has an [id], it
    does what it does when called with that id (an id that is not itself
    such a dict). *)
Theorem object_stands_for_its_id self d id reaction exclude_repeats max_id limit :
  d !! "id" = Some id ->
  _unpack_id id = id ->
  status_context py_repr self (VDict d) = status_context py_repr self id
  /\ media py_repr self (VDict d) = media py_repr self id
  /\ delete_status py_repr self (VDict d) = delete_status py_repr self id
  /\ favorite py_repr self (VDict d) = favorite py_repr self id
  /\ unfavorite py_repr self (VDict d) = unfavorite py_repr self id
  /\ repeat py_repr self (VDict d) = repeat py_repr self id
  /\ un_repeat py_repr self (VDict d) = un_repeat py_repr self id
  /\ react py_repr self (VDict d) reaction = react py_repr self id reaction
  /\ remove_reaction py_repr self (VDict d) reaction
     = remove_reaction py_repr self id reaction
  /\ pin py_repr self (VDict d) = pin py_repr self id
  /\ unpin py_repr self (VDict d) = unpin py_repr self id
  /\ account_statuses py_repr self (VDict d) exclude_repeats max_id limit
     = account_statuses py_repr self id exclude_repeats max_id limit.
Proof.
  intros Hd Hid.
  unfold status_context, media, delete_status, favorite, unfavorite, repeat,
    un_repeat, react, remove_reaction, pin, unpin, account_statuses,
    account_statuses_params.
  rewrite (unpack_id_of_object d id Hd), Hid. repeat split.
Qed.

(** X4.  [following] asks for the followed accounts of the account it is
    given when that is truthy, and then looks nothing up; given a falsy
    one it uses the cached account id, when there is one, without a
    request of its own for it; and when the lookup of the id raises, so
    does [following], having asked for no list. *)
Theorem following_whom self account_id w :
  (truthy account_id = true ->
   following py_repr self account_id w
   = request self "GET"
       ("/api/v1/accounts/" ++ py_str py_repr account_id ++ "/following") ∅ w)
  /\ (truthy account_id = false ->
      _logged_in_id w <> VNone ->
      following py_repr self account_id w
      = request self "GET"
          ("/api/v1/accounts/" ++ py_str py_repr (_logged_in_id w) ++ "/following")
          ∅ w)
  /\ (truthy account_id = false ->
      forall e w',
        _get_logged_in_id self w = (Raise e, w') ->
        following py_repr self account_id w = (Raise e, w')).
Proof.
  unfold following. split; [|split].
  - intros ->. reflexivity.
  - intros -> Hset. unfold bind at 1.
    rewrite (logged_in_id_cached self w Hset). reflexivity.
  - intros -> e w' Hraise. unfold bind at 1. rewrite Hraise. reflexivity.
Qed.

(** X5.  The query [account_statuses] sends holds [exclude_reblogs], as 1
    when [exclude_repeats] is truthy and as 0 otherwise; [max_id], unpacked,
    unless that argument is [None]; and nothing else.  The [limit] argument
    does not reach the request. *)
Theorem account_statuses_query self id exclude_repeats max_id limit :
  account_statuses_params exclude_repeats max_id !! "exclude_reblogs"
  = Some (VStr (if truthy exclude_repeats then "1" else "0"))
  /\ account_statuses_params exclude_repeats max_id !! "max_id"
     = (if is_None max_id then None else Some (_unpack_id max_id))
  /\ (forall k, k <> "exclude_reblogs" -> k <> "max_id" ->
      account_statuses_params exclude_repeats max_id !! k = None)
  /\ account_statuses py_repr self id exclude_repeats max_id limit
     = request self "GET"
         ("/api/v1/accounts/" ++ py_str py_repr (_unpack_id id) ++ "/statuses")
         {[ "params" := VDict (account_statuses_params exclude_repeats max_id) ]}
  /\ account_statuses py_repr self id exclude_repeats max_id limit
     = account_statuses py_repr self id exclude_repeats max_id VNone.
Proof.
  unfold account_statuses_params.
  repeat split; destruct (is_None max_id); cbn [negb]; intros;
    simplify_map_eq; reflexivity.
Qed.

(** ** Paging through the statuses of an account *)

Lemma fetch_pages_paged self id exclude_repeats max_id w pages r w' :
  paged py_repr self id exclude_repeats max_id w pages r w' ->
  forall n, (length (wire w) < n)%nat ->
  fetch_pages py_repr keys_in_order n self id exclude_repeats max_id w
  = ((concat pages, r), w').
Proof.
  induction 1 as [max_id w results w' Hrun Hfalsy
                 |max_id w e w' Hrun
                 |max_id w w' Hrun
                 |max_id w x l w1 pages r w' Hrun _ IH];
    intros n Hn; (destruct n as [|n]; [lia|]); cbn [fetch_pages];
    rewrite Hrun.
  - rewrite Hfalsy. reflexivity.
  - reflexivity.
  - reflexivity.
  - cbn [truthy turn_page]. rewrite IH.
    + reflexivity.
    + apply request_return_consumes in Hrun. lia.
Qed.

(** X6.  [account_statuses_iter] yields the statuses page by page, in the
    order the server lists them, asking for each further page with the last
    status of the page before as [max_id]; it stops without an error at the
    first page that is empty, and when a fetch raises, it has yielded the
    pages before and ends with that exception. *)
Theorem account_statuses_iter_pages self id exclude_repeats max_id w pages r w' :
  paged py_repr self id exclude_repeats max_id w pages r w' ->
  account_statuses_iter py_repr keys_in_order self id exclude_repeats max_id w
  = ((concat pages, r), w').
Proof.
  intros Hpaged. unfold account_statuses_iter.
  apply fetch_pages_paged; [assumption|lia].
Qed.

(** ** The deny-list *)

(** X7.  On a host of the deny-list nothing reaches the transport:
    [request] raises its [RuntimeError] in the world it was called in, and
    with it every wrapper, and the paging generator yields nothing. *)
Theorem denied_host_is_never_contacted self host w :
  url_host (api_base_url self) = Some host ->
  blocklisted host = true ->
  (forall method path kw,
     request self method path kw w = (Raise (RuntimeError "stop being a chud"), w))
  /\ (forall id,
     favorite py_repr self id w = (Raise (RuntimeError "stop being a chud"), w)
     /\ delete_status py_repr self id w
        = (Raise (RuntimeError "stop being a chud"), w)
     /\ status_context py_repr self id w
        = (Raise (RuntimeError "stop being a chud"), w))
  /\ (forall id exclude_repeats max_id,
     account_statuses_iter py_repr keys_in_order self id exclude_repeats max_id w
     = (([], Raise (RuntimeError "stop being a chud")), w))
  /\ (forall content in_reply_to_id cw visibility,
     invalid_visibility visibility = inr false ->
     post self content in_reply_to_id cw visibility None w
     = (Raise (RuntimeError "stop being a chud"), w)).
Proof.
  intros Hhost Hdenied.
  assert (Hreq : forall method path kw,
    request self method path kw w = (Raise (RuntimeError "stop being a chud"), w)).
  { intros. unfold request. rewrite Hhost, Hdenied. reflexivity. }
  split; [exact Hreq|]. split; [|split].
  - intros id. unfold favorite, delete_status, status_context.
    rewrite !Hreq. auto.
  - intros id exclude_repeats max_id.
    unfold account_statuses_iter. cbn [fetch_pages].
    unfold account_statuses. rewrite Hreq. reflexivity.
  - intros content in_reply_to_id cw visibility Hvalid.
    unfold post, bind at 1. rewrite Hvalid. cbn. apply Hreq.
Qed.

(** ** Replies *)

Lemma py_eqb_refl v : hashable v = true -> py_eqb v v = true.
Proof.
  destruct v as [|b|n|s|l|d]; cbn; try discriminate; intros _.
  - reflexivity.
  - destruct b; reflexivity.
  - apply Z.eqb_refl.
  - apply String.eqb_refl.
Qed.

Lemma mentioned_false id m :
  mentioned id m = false <-> Forall (fun e => py_eqb (fst e) id = false) m.
Proof.
  unfold mentioned. induction m as [|e m IH]; cbn.
  - split; [constructor|reflexivity].
  - rewrite orb_false_iff, IH. split.
    + intros [? ?]. constructor; assumption.
    + intros H. inversion H; subst. auto.
Qed.

Lemma mentioned_app id m added :
  mentioned id (m ++ added) = mentioned id m || mentioned id added.
Proof. unfold mentioned. apply existsb_app. Qed.

Lemma distinct_snoc (R : value * value -> value * value -> Prop) m x :
  ForallOrdPairs R m -> Forall (fun e => R e x) m -> ForallOrdPairs R (m ++ [x]).
Proof.
  induction 1 as [|e m He _ IH]; cbn; intros Hx.
  - constructor; constructor.
  - inversion Hx; subst. constructor; [|auto].
    apply Forall_app. split; [assumption|]. constructor; [assumption|constructor].
Qed.

(** One turn of the loop either leaves the mentions alone or appends an
    account that is not the user and was not there yet; either way an
    account that is not the user is among the mentions afterwards. *)
Lemma mention_turn user_id m account m' :
  mention user_id m account = inr m' ->
  (m' = m
   \/ exists id acct,
        getitem account "id" = inr id
        /\ py_eqb id user_id = false
        /\ mentioned id m = false
        /\ m' = (m ++ [(id, acct)])%list)
  /\ (forall id, getitem account "id" = inr id -> py_eqb id user_id = false ->
      mentioned id m' = true).
Proof.
  unfold mention, try. destruct (getitem account "id") as [e|id]; [discriminate|].
  destruct (py_eqb id user_id) eqn:Huser; cbn [negb].
  { intros [= <-]. split; [auto|]. intros id' [= <-]. congruence. }
  destruct (hashable id) eqn:Hhash; cbn [negb]; [|discriminate].
  destruct (mentioned id m) eqn:Hin; cbn [negb].
  { intros [= <-]. split; [auto|]. intros id' [= <-] _. assumption. }
  destruct (getitem account "acct") as [e|acct]; [discriminate|].
  intros [= <-]. split.
  - right. exists id, acct. auto.
  - intros id' [= <-] _. rewrite mentioned_app. cbn.
    rewrite (py_eqb_refl id Hhash). cbn. apply orb_true_r.
Qed.

Lemma mention_all_sound user_id accounts : forall m0 m,
  mention_all user_id m0 accounts = inr m ->
  (exists added,
     m = (m0 ++ added)%list
     /\ Forall (fun e => py_eqb (fst e) user_id = false) added)
  /\ (ForallOrdPairs (fun e1 e2 => py_eqb (fst e1) (fst e2) = false) m0 ->
      ForallOrdPairs (fun e1 e2 => py_eqb (fst e1) (fst e2) = false) m)
  /\ (forall account id,
        In account accounts -> getitem account "id" = inr id ->
        py_eqb id user_id = false -> mentioned id m = true).
Proof.
  induction accounts as [|account rest IH]; intros m0 m; cbn [mention_all].
  - intros [= <-]. split; [exists []; rewrite app_nil_r; auto|].
    split; [auto|]. intros ? ? [].
  - unfold try at 1.
    destruct (mention user_id m0 account) as [e|m1] eqn:Hturn; [discriminate|].
    intros Hrest. apply mention_turn in Hturn. destruct Hturn as [Hstep Hnow].
    destruct (IH m1 m Hrest) as ((added & -> & Hadded) & Hdistinct & Hall).
    split; [|split].
    + destruct Hstep as [->|(id & acct & _ & Huser & _ & ->)].
      * exists added. auto.
      * exists ((id, acct) :: added). rewrite <- app_assoc. split; [reflexivity|].
        constructor; assumption.
    + intros Hm0. apply Hdistinct.
      destruct Hstep as [->|(id & acct & _ & _ & Hnew & ->)]; [assumption|].
      apply distinct_snoc; [assumption|]. apply mentioned_false in Hnew. exact Hnew.
    + intros account' id [<-|Hin] Hid Huser.
      * rewrite mentioned_app, (Hnow id Hid Huser). reflexivity.
      * eapply Hall; eassumption.
Qed.

(** X8.  The accounts a reply mentions: the author of the status comes
    first, whoever that is; after the author nobody with the id of the
    replying user is mentioned; no two of the mentioned accounts have equal
    ids; and every account the status mentions, other than the replying
    user, is among them. *)
Theorem reply_mentions_sound user_id to_status m :
  reply_mentions keys_in_order user_id to_status = inr m ->
  exists account author acct mentions accounts rest,
    getitem to_status "account" = inr account
    /\ getitem account "id" = inr author
    /\ getitem account "acct" = inr acct
    /\ getitem to_status "mentions" = inr mentions
    /\ iterate keys_in_order mentions = inr accounts
    /\ m = (author, acct) :: rest
    /\ Forall (fun e => py_eqb (fst e) user_id = false) rest
    /\ ForallOrdPairs (fun e1 e2 => py_eqb (fst e1) (fst e2) = false) m
    /\ (forall other id,
          In other accounts -> getitem other "id" = inr id ->
          py_eqb id user_id = false -> mentioned id m = true).
Proof.
  unfold reply_mentions, try.
  destruct (getitem to_status "account") as [e|account] eqn:H1; [discriminate|].
  destruct (getitem account "acct") as [e|acct] eqn:H2; [discriminate|].
  destruct (getitem account "id") as [e|author] eqn:H3; [discriminate|].
  destruct (hashable author); cbn [negb]; [|discriminate].
  destruct (getitem to_status "mentions") as [e|mentions] eqn:H4; [discriminate|].
  destruct (iterate keys_in_order mentions) as [e|accounts] eqn:H5; [discriminate|].
  intros Hall. apply mention_all_sound in Hall.
  destruct Hall as ((rest & -> & Hrest) & Hdistinct & Hcomplete).
  exists account, author, acct, mentions, accounts, rest.
  repeat (split; [reflexivity || assumption|]). split; [|assumption].
  apply Hdistinct. constructor; constructor.
Qed.


(** X10.  The content warning of a reply: a truthy [cw] is used as it is;
    without one, a status with a non-empty spoiler text hands it down behind
    the prefix [re: ], and a status with no spoiler text, or an empty one,
    leaves the reply without a warning of its own. *)
Theorem reply_content_warning user_id to_status content cw c i cw' vis :
  reply_args keys_in_order user_id to_status content cw = inr (c, i, cw', vis) ->
  (truthy cw = true -> cw' = cw)
  /\ (truthy cw = false ->
      forall spoiler,
        getitem to_status "spoiler_text" = inr spoiler ->
        truthy spoiler = true ->
        exists text, spoiler = VStr text /\ cw' = VStr ("re: " ++ text))
  /\ (truthy cw = false ->
      (forall spoiler,
         getitem to_status "spoiler_text" = inr spoiler -> truthy spoiler = false) ->
      cw' = cw).
Proof.
  unfold reply_args, try. intros Hargs.
  destruct to_status as [| | | | |d]; try discriminate.
  destruct (reply_mentions keys_in_order user_id (VDict d)) as [e|m];
    [discriminate|].
  destruct (at_names (snd <$> m)) as [e|names]; [discriminate|].
  destruct content as [| | |text| |]; try discriminate.
  destruct (getitem (VDict d) "visibility") as [e|v]; [discriminate|].
  cbn [getitem].
  destruct (truthy cw) eqn:Hcw; cbn [negb] in Hargs.
  - destruct (getitem (VDict d) "id") as [e|id]; [discriminate|].
    injection Hargs as <- <- <- <-.
    split; [reflexivity|]. split; discriminate.
  - split; [discriminate|].
    destruct (d !! "spoiler_text") as [spoiler|] eqn:Hsp.
    + destruct (truthy spoiler) eqn:Htruthy.
      * destruct spoiler as [| | |sp| |]; try discriminate.
        destruct (getitem (VDict d) "id") as [e|id]; [discriminate|].
        injection Hargs as <- <- <- <-. split.
        -- intros _ spoiler [= <-] _. eauto.
        -- intros _ Hfalsy. specialize (Hfalsy (VStr sp) eq_refl). congruence.
      * destruct (getitem (VDict d) "id") as [e|id]; [discriminate|].
        injection Hargs as <- <- <- <-. split.
        -- intros _ spoiler' [= <-] Htrue. congruence.
        -- reflexivity.
    + destruct (getitem (VDict d) "id") as [e|id]; [discriminate|].
      injection Hargs as <- <- <- <-. split.
      * intros _ spoiler [=].
      * reflexivity.
Qed.

End EndpointProperties.

(** ** The constructor *)

Lemma rstrip_where_end p s s' a :
  rstrip_where p s = s' ++ String a EmptyString -> p a = false.
Proof.
  revert s'. induction s as [|b s IH]; intros s'; cbn.
  - destruct s'; discriminate.
  - destruct (rstrip_where p s) as [|c r] eqn:Hr.
    + destruct (p b) eqn:Hb; [destruct s'; discriminate|].
      destruct s' as [|c s']; cbn; [intros [= <-]; exact Hb|].
      intros [= _ H]. destruct s'; discriminate.
    + destruct s' as [|c' s']; cbn.
      * discriminate.
      * intros [= _ H]. eapply IH. exact H.
Qed.

Lemma rstrip_where_snoc p s a :
  p a = true -> rstrip_where p (s ++ String a EmptyString) = rstrip_where p s.
Proof.
  intros Ha. induction s as [|b s IH];
    unfold String.append; fold String.append; cbn.
  - rewrite Ha. reflexivity.
  - rewrite IH. reflexivity.
Qed.

Lemma rstrip_where_head p b s a r :
  rstrip_where p (String b s) = String a r -> a = b.
Proof.
  cbn. destruct (rstrip_where p s); [destruct (p b)|]; congruence.
Qed.

Lemma rstrip_where_cons p a s :
  rstrip_where p (String a s)
  = match rstrip_where p s with
    | EmptyString => if p a then EmptyString else String a EmptyString
    | r => String a r
    end.
Proof. reflexivity. Qed.

Lemma rstrip_where_idem p s :
  rstrip_where p (rstrip_where p s) = rstrip_where p s.
Proof.
  induction s as [|b s IH]; cbn; [reflexivity|].
  destruct (rstrip_where p s) as [|c r] eqn:Hr.
  - destruct (p b) eqn:Hb; cbn; [reflexivity|]. rewrite Hb. reflexivity.
  - rewrite rstrip_where_cons, IH. reflexivity.
Qed.

Lemma lstrip_where_head p s a r :
  lstrip_where p s = String a r -> p a = false.
Proof.
  induction s as [|b s IH]; cbn; [discriminate|].
  destruct (p b) eqn:Hb; [exact IH|]. congruence.
Qed.

Lemma lstrip_where_fixed p a r :
  p a = false -> lstrip_where p (String a r) = String a r.
Proof. intros Ha. cbn. rewrite Ha. reflexivity. Qed.

Lemma lstrip_where_app p s t :
  lstrip_where p (s ++ t)
  = match lstrip_where p s with
    | EmptyString => lstrip_where p t
    | r => r ++ t
    end.
Proof.
  induction s as [|b s IH];
    unfold String.append; fold String.append; cbn; [reflexivity|].
  destruct (p b); [exact IH|reflexivity].
Qed.

Lemma strip_ends s :
  (forall a r, strip s = String a r -> whitespace a = false)
  /\ (forall r a, strip s = r ++ String a EmptyString -> whitespace a = false).
Proof.
  unfold strip. split.
  - intros a r Hs. destruct (lstrip_where whitespace s) as [|b t] eqn:Ht;
      [discriminate|].
    apply rstrip_where_head in Hs. subst.
    eapply lstrip_where_head. exact Ht.
  - intros r a Hs. eapply rstrip_where_end. exact Hs.
Qed.

Lemma strip_idem s : strip (strip s) = strip s.
Proof.
  destruct (strip s) as [|a r] eqn:Hs; [reflexivity|].
  unfold strip at 1. rewrite lstrip_where_fixed.
  - rewrite <- Hs. unfold strip. apply rstrip_where_idem.
  - eapply (proj1 (strip_ends s)). exact Hs.
Qed.

(** X11.  The client [__init__] builds: its base URL never ends with a
    slash and its token has no whitespace at either end; a slash more at
    the end of the URL, or whitespace more around the token, gives the same
    client; and building a client from a client's own URL and token gives
    that client again. *)
Theorem constructor_normalises url token :
  (forall s, api_base_url (__init__ url token) <> s ++ "/")
  /\ (forall a r, access_token (__init__ url token) = String a r ->
                  whitespace a = false)
  /\ (forall r a, access_token (__init__ url token) = r ++ String a EmptyString ->
                  whitespace a = false)
  /\ __init__ (url ++ "/") token = __init__ url token
  /\ (forall a, whitespace a = true ->
        __init__ url (String a token) = __init__ url token
        /\ __init__ url (token ++ String a EmptyString) = __init__ url token)
  /\ __init__ (api_base_url (__init__ url token)) (access_token (__init__ url token))
     = __init__ url token.
Proof.
  unfold __init__. cbn [api_base_url access_token].
  split; [|split; [|split; [|split; [|split]]]].
  - intros s Hs. apply rstrip_where_end in Hs. discriminate.
  - apply (proj1 (strip_ends token)).
  - apply (proj2 (strip_ends token)).
  - unfold rstrip. rewrite rstrip_where_snoc; reflexivity.
  - intros a Ha. split; f_equal.
    + unfold strip. cbn. rewrite Ha. reflexivity.
    + unfold strip. rewrite lstrip_where_app.
      destruct (lstrip_where whitespace token) as [|b t] eqn:Ht.
      * cbn. rewrite Ha. reflexivity.
      * change (String b t ++ String a EmptyString)
          with ((String b t) ++ String a EmptyString).
        apply rstrip_where_snoc. exact Ha.
  - f_equal; [apply rstrip_where_idem|apply strip_idem].
Qed.

(** ** Posting *)


(** X13.  The form fields of a post, one by one: [status] is the content;
    [in_reply_to_id] is there if and only if the unpacked id is truthy;
    [visibility] if and only if it is not [None]; [media_ids[]] if and only
    if files were uploaded; and besides these and [spoiler_text] there is
    no field.  They are the fields [post] sends: without files to upload
    [post] is the request that carries them, with no [media_ids[]], and with
    files, once the uploads have returned their ids, [post] is the request
    that carries them with those ids as [media_ids[]]. *)
Theorem post_data_fields content in_reply_to_id cw visibility files_uploaded :
  post_data content in_reply_to_id cw visibility files_uploaded !! "status"
  = Some content
  /\ post_data content in_reply_to_id cw visibility files_uploaded !! "in_reply_to_id"
     = (if truthy (_unpack_id in_reply_to_id)
        then Some (_unpack_id in_reply_to_id) else None)
  /\ post_data content in_reply_to_id cw visibility files_uploaded !! "visibility"
     = (if is_None visibility then None else Some visibility)
  /\ post_data content in_reply_to_id cw visibility files_uploaded !! "media_ids[]"
     = VList <$> files_uploaded
  /\ (forall k,
        k ∉ ["status"; "in_reply_to_id"; "visibility"; "spoiler_text"; "media_ids[]"] ->
        post_data content in_reply_to_id cw visibility files_uploaded !! k = None)
  /\ (forall self files w,
        invalid_visibility visibility = inr false ->
        files = None \/ files = Some [] ->
        post self content in_reply_to_id cw visibility files w
        = request self "POST" "/api/v1/statuses"
            {[ "data" := VDict (post_data content in_reply_to_id cw visibility
                                  None) ]} w
        /\ post_data content in_reply_to_id cw visibility None !! "media_ids[]"
           = None)
  /\ (forall self f fs w ids w',
        invalid_visibility visibility = inr false ->
        upload_all self (f :: fs) w = (Return ids, w') ->
        post self content in_reply_to_id cw visibility (Some (f :: fs)) w
        = request self "POST" "/api/v1/statuses"
            {[ "data" := VDict (post_data content in_reply_to_id cw visibility
                                  (Some ids)) ]} w'
        /\ post_data content in_reply_to_id cw visibility (Some ids) !! "media_ids[]"
           = Some (VList ids)).
Proof.
  assert (Hmedia : forall uploaded,
    post_data content in_reply_to_id cw visibility uploaded !! "media_ids[]"
    = VList <$> uploaded).
  { intros uploaded. unfold post_data.
    destruct uploaded, (truthy (_unpack_id in_reply_to_id)),
      (is_None visibility), (truthy cw); cbn [negb]; simplify_map_eq; reflexivity. }
  split; [|split; [|split; [|split; [|split; [|split]]]]].
  - unfold post_data.
    destruct files_uploaded, (truthy (_unpack_id in_reply_to_id)),
      (is_None visibility), (truthy cw); cbn [negb]; simplify_map_eq; reflexivity.
  - unfold post_data.
    destruct files_uploaded, (truthy (_unpack_id in_reply_to_id)),
      (is_None visibility), (truthy cw); cbn [negb]; simplify_map_eq; reflexivity.
  - unfold post_data.
    destruct files_uploaded, (truthy (_unpack_id in_reply_to_id)),
      (is_None visibility), (truthy cw); cbn [negb]; simplify_map_eq; reflexivity.
  - apply Hmedia.
  - intros k Hk. repeat (apply not_elem_of_cons in Hk; destruct Hk as [? Hk]).
    unfold post_data.
    destruct files_uploaded, (truthy (_unpack_id in_reply_to_id)),
      (is_None visibility), (truthy cw); cbn [negb]; simplify_map_eq; reflexivity.
  - intros self files w Hvalid Hfiles. split; [|apply (Hmedia None)].
    rewrite post_hands_over by assumption.
    destruct Hfiles as [-> | ->]; reflexivity.
  - intros self f fs w ids w' Hvalid Hup. split; [|apply (Hmedia (Some ids))].
    rewrite post_hands_over by assumption.
    unfold bind. rewrite Hup. reflexivity.
Qed.

(** ** More on streams *)

Lemma async_for_split {A} (xs ys : list A) ended body :
  async_for (xs ++ ys) ended body
  = match raised (async_for xs None body) with
    | Some e => async_for xs None body
    | None =>
        {| yielded := yielded (async_for xs None body)
                        ++ yielded (async_for ys ended body);
           raised := raised (async_for ys ended body) |}
    end.
Proof.
  induction xs as [|x xs IH]; cbn.
  - destruct (async_for ys ended body). reflexivity.
  - destruct (body x) as [e|out]; cbn; [reflexivity|]. rewrite IH.
    destruct (raised (async_for xs None body)) eqn:Hr; cbn; rewrite ?Hr;
      [reflexivity|].
    rewrite app_assoc. reflexivity.
Qed.

(** X14.  What [stream] has yielded for the frames seen so far stays: if
    one of them made it raise, the frames after it change nothing, and
    otherwise what the later frames bring is appended to it. *)
Theorem stream_keeps_what_it_yielded self stream_name target seen later :
  ws_connect (streaming_url self stream_name) = (seen ++ later)%list ->
  (forall e,
     raised (async_for seen None (on_message target)) = Some e ->
     stream self stream_name target = async_for seen None (on_message target))
  /\ (raised (async_for seen None (on_message target)) = None ->
      stream self stream_name target
      = {| yielded := yielded (async_for seen None (on_message target))
                        ++ yielded (async_for later None (on_message target));
           raised := raised (async_for later None (on_message target)) |}).
Proof.
  intros Hframes. unfold stream. rewrite Hframes, async_for_split.
  split; [intros e ->|intros ->]; reflexivity.
Qed.

(** X15.  The three subscriptions that pass a stream on yield what that
    stream yields and end as it ends: notifications are the stream
    [user:notification] narrowed to the event [notification], and the local
    and the federated timeline are the streams [public:local] and [public],
    not narrowed. *)
Theorem subscriptions_pass_the_stream_on self :
  stream_notifications self = stream self "user:notification" (Some "notification")
  /\ stream_local_timeline self = stream self "public:local" None
  /\ stream_federated_timeline self = stream self "public" None.
Proof.
  split; [apply stream_notifications_is_stream|].
  unfold stream_local_timeline, stream_federated_timeline.
  rewrite !async_for_yield_each.
  split; [destruct (stream self "public:local" None)
         |destruct (stream self "public" None)]; reflexivity.
Qed.

End Client.

(** * The properties at work on the sample data *)

(** ** The rate-limit layer *)

(** Against C1 as written: the response's remaining header reads 0, yet
    the transport is asked once only.  The lookup of the missing reset
    header raises, and the second exchange stays on the wire. *)
Lemma limited_without_reset_is_not_retried :
  __aenter__ sample_parsedate sample_call
    (sample_world [Answered 0 resp_limited_no_reset; Answered 0 resp_ok])
  = (Raise (KeyError "X-RateLimit-Reset"),
     {| now := 0; wire := [Answered 0 resp_ok]; log := [Sent 0 sample_call];
        _logged_in_id := VNone |})
  /\ ~ ((2 <= sent_count (log (snd (__aenter__ sample_parsedate sample_call
                (sample_world [Answered 0 resp_limited_no_reset;
                               Answered 0 resp_ok])))))%nat
        <-> (headers_get "X-RateLimit-Remaining" (headers resp_limited_no_reset)
             = Some "0"
             \/ headers_get "X-RateLimit-Remaining" (headers resp_limited_no_reset)
                = Some "1")).
Proof.
  split; [reflexivity|].
  intros [_ H]. specialize (H (or_introl eq_refl)). vm_compute in H. lia.
Qed.

Lemma retried_iff_limited_and_reset_known_witness :
  (headers_get "X-RateLimit-Remaining" (headers resp_ok) <> Some "0"
   /\ headers_get "X-RateLimit-Remaining" (headers resp_ok) <> Some "1")
  /\ __aenter__ sample_parsedate sample_call
       (sample_world [Answered 3 resp_ok; Answered 0 resp_limited])
     = (Return resp_ok,
        {| now := 3; wire := [Answered 0 resp_limited];
           log := [Sent 0 sample_call]; _logged_in_id := VNone |}).
Proof.
  split; [split; discriminate|].
  apply (proj2 (retried_iff_limited_and_reset_known sample_parsedate sample_call
                  0 3 resp_ok [Answered 0 resp_limited] [] VNone));
    discriminate.
Defined.

(** Against C2 as written.  A response whose remaining header reads 1 and
    whose reset header is the word [soon] is followed by no sleep, no
    release and no second request.  And where the retry does happen, the
    sleep comes first and the release after it. *)
Lemma limited_response_not_always_reissued :
  headers_get "X-RateLimit-Remaining" (headers resp_limited_bad_reset) = Some "1"
  /\ __aenter__ sample_parsedate sample_call
       (sample_world [Answered 0 resp_limited_bad_reset; Answered 0 resp_ok])
     = (Raise ParserError,
        {| now := 0; wire := [Answered 0 resp_ok]; log := [Sent 0 sample_call];
           _logged_in_id := VNone |})
  /\ __aenter__ sample_parsedate sample_call
       (sample_world [Answered 0 resp_limited; Answered 0 resp_ok])
     = (Return resp_ok,
        {| now := 100; wire := [];
           log := [Sent 0 sample_call; Slept 0 100; Released resp_limited;
                   Sent 100 sample_call];
           _logged_in_id := VNone |}).
Proof. repeat split. Qed.

Lemma limited_rounds_then_return_witness :
  Forall (fun round => limited (snd (fst round)) = true
                       /\ reset_at sample_parsedate (snd (fst round))
                          = Some (snd round))
    [(7%N, resp_limited, 100); (150%N, resp_limited, 100)]
  /\ limited resp_ok = false
  /\ __aenter__ sample_parsedate sample_call
       (sample_world [Answered 7 resp_limited; Answered 150 resp_limited;
                      Answered 2 resp_ok])
     = (Return resp_ok,
        {| now := 252; wire := [];
           log := [Sent 0 sample_call; Slept 7 93; Released resp_limited;
                   Sent 100 sample_call; Slept 250 (-150); Released resp_limited;
                   Sent 250 sample_call];
           _logged_in_id := VNone |}).
Proof.
  assert (Hrounds : Forall (fun round => limited (snd (fst round)) = true
                       /\ reset_at sample_parsedate (snd (fst round))
                          = Some (snd round))
    [(7%N, resp_limited, 100); (150%N, resp_limited, 100)]).
  { repeat constructor. }
  split; [exact Hrounds|]. split; [reflexivity|].
  exact (proj1 (limited_rounds_then_return sample_parsedate sample_call
                  [(7%N, resp_limited, 100); (150%N, resp_limited, 100)]
                  2 resp_ok [] 0 [] VNone Hrounds eq_refl)).
Defined.

(** A reset header that parses, but to a date without a zone, stops the
    call short of the sleep. *)
Lemma naive_reset_is_a_TypeError :
  __aenter__ sample_parsedate sample_call
    (sample_world [Answered 0 resp_limited_naive_reset; Answered 0 resp_ok])
  = (Raise TypeError,
     {| now := 0; wire := [Answered 0 resp_ok]; log := [Sent 0 sample_call];
        _logged_in_id := VNone |}).
Proof. reflexivity. Qed.

(** Against C4 as written: what [request] raises for a reset header that
    is missing or is not a date is a [KeyError] or a [ParserError]. *)
Lemma unusable_reset_is_not_BadResponse :
  fst (request sample_parsedate sample_host sample_blocklisted sample_client
         "GET" "/api/v1/accounts/verify_credentials" ∅
         (sample_world [Answered 0 resp_limited_no_reset]))
  = Raise (KeyError "X-RateLimit-Reset")
  /\ fst (request sample_parsedate sample_host sample_blocklisted sample_client
            "GET" "/api/v1/accounts/verify_credentials" ∅
            (sample_world [Answered 0 resp_limited_bad_reset]))
     = Raise ParserError
  /\ forall arg,
       fst (request sample_parsedate sample_host sample_blocklisted sample_client
              "GET" "/api/v1/accounts/verify_credentials" ∅
              (sample_world [Answered 0 resp_limited_no_reset]))
       <> Raise (BadResponse arg).
Proof. repeat split. intros arg. discriminate. Qed.

Lemma unusable_reset_raises_witness :
  sample_host (api_base_url sample_client) = Some "example.test"
  /\ sample_blocklisted "example.test" = false
  /\ headers_get "X-RateLimit-Remaining" (headers resp_limited_no_reset) = Some "0"
  /\ headers_get "X-RateLimit-Reset" (headers resp_limited_no_reset) = None
  /\ request sample_parsedate sample_host sample_blocklisted sample_client
       "GET" "/api/v1/accounts/verify_credentials" ∅
       {| now := 0; wire := [Answered 4 resp_limited_no_reset]; log := [];
          _logged_in_id := VNone |}
     = (Raise (KeyError "X-RateLimit-Reset"),
        {| now := 0 + Z.of_N 4; wire := [];
           log := [] ++ [Sent 0 sample_call]; _logged_in_id := VNone |}).
Proof.
  repeat (split; [reflexivity|]).
  exact (proj1 (unusable_reset_raises sample_parsedate sample_host
                  sample_blocklisted sample_client "GET"
                  "/api/v1/accounts/verify_credentials" ∅ "example.test"
                  0 4 resp_limited_no_reset [] [] VNone
                  eq_refl eq_refl (or_introl eq_refl)) eq_refl).
Defined.

(** ** Statuses *)

Lemma status_400_and_500_raise_witness :
  sample_host (api_base_url sample_client) = Some "example.test"
  /\ sample_blocklisted "example.test" = false
  /\ status resp_400 = 400
  /\ json resp_400 = inr (VDict {[ "error" := VStr "Record not found" ]})
  /\ request sample_parsedate sample_host sample_blocklisted sample_client
       "DELETE" "/api/v1/statuses/42" ∅ (sample_world [Answered 1 resp_400])
     = (Raise (BadRequest (VStr "Record not found")),
        {| now := 1; wire := [];
           log := [Sent 0 {| args := [VStr "DELETE";
                                      VStr "https://example.test/api/v1/statuses/42"];
                             kwargs := ∅ |};
                   Released resp_400];
           _logged_in_id := VNone |}).
Proof.
  repeat (split; [reflexivity|]).
  exact (proj1 (status_400_and_500_raise sample_parsedate sample_host
                  sample_blocklisted sample_client "DELETE" "/api/v1/statuses/42"
                  ∅ "example.test" (sample_world [Answered 1 resp_400]) resp_400
                  {| now := 1; wire := [];
                     log := [Sent 0 {| args := [VStr "DELETE";
                               VStr "https://example.test/api/v1/statuses/42"];
                               kwargs := ∅ |}];
                     _logged_in_id := VNone |}
                  eq_refl eq_refl eq_refl)
           {[ "error" := VStr "Record not found" ]} (VStr "Record not found")
           eq_refl eq_refl eq_refl).
Defined.

Lemma other_status_returns_body_witness :
  sample_host (api_base_url sample_client) = Some "example.test"
  /\ sample_blocklisted "example.test" = false
  /\ status resp_404 <> 400
  /\ status resp_404 <> 500
  /\ json resp_404 = inr not_found
  /\ request sample_parsedate sample_host sample_blocklisted sample_client
       "GET" "/api/v1/statuses/42/context" ∅ (sample_world [Answered 1 resp_404])
     = (Return not_found,
        {| now := 1; wire := [];
           log := [Sent 0 {| args := [VStr "GET";
                               VStr "https://example.test/api/v1/statuses/42/context"];
                             kwargs := ∅ |};
                   Released resp_404];
           _logged_in_id := VNone |}).
Proof.
  split; [reflexivity|]. split; [reflexivity|].
  split; [discriminate|]. split; [discriminate|]. split; [reflexivity|].
  refine (other_status_returns_body sample_parsedate sample_host
            sample_blocklisted sample_client "GET" "/api/v1/statuses/42/context"
            ∅ "example.test" (sample_world [Answered 1 resp_404]) resp_404
            {| now := 1; wire := [];
               log := [Sent 0 {| args := [VStr "GET";
                         VStr "https://example.test/api/v1/statuses/42/context"];
                         kwargs := ∅ |}];
               _logged_in_id := VNone |}
            not_found eq_refl eq_refl eq_refl _ _ eq_refl); discriminate.
Defined.

(** ** The cached account id *)

(** Against C8 as written: the first call succeeds on an account whose id
    is null and returns [None]; the cache is then as unset as before, so
    the second call asks the server again and returns another value. *)
Lemma null_id_is_fetched_again :
  (first <- _get_logged_in_id sample_parsedate sample_host sample_blocklisted
              sample_client ;;
   second <- _get_logged_in_id sample_parsedate sample_host sample_blocklisted
               sample_client ;;
   ret (first, second))
    (sample_world [Answered 0 resp_null_id; Answered 0 resp_ok])
  = (Return (VNone, VStr "42"),
     {| now := 0; wire := [];
        log := [Sent 0 sample_call; Released resp_null_id;
                Sent 0 sample_call; Released resp_ok];
        _logged_in_id := VStr "42" |}).
Proof. reflexivity. Qed.

Lemma logged_in_id_memoised_witness :
  _logged_in_id (sample_world [Answered 0 resp_ok]) = VNone
  /\ me sample_parsedate sample_host sample_blocklisted sample_client
       (sample_world [Answered 0 resp_ok])
     = (Return (VDict {[ "id" := VStr "42" ]}),
        {| now := 0; wire := []; log := [Sent 0 sample_call; Released resp_ok];
           _logged_in_id := VNone |})
  /\ VStr "42" <> VNone
  /\ _get_logged_in_id sample_parsedate sample_host sample_blocklisted sample_client
       (sample_world [Answered 0 resp_ok])
     = (Return (VStr "42"),
        {| now := 0; wire := []; log := [Sent 0 sample_call; Released resp_ok];
           _logged_in_id := VStr "42" |})
  /\ _get_logged_in_id sample_parsedate sample_host sample_blocklisted sample_client
       {| now := 0; wire := []; log := [Sent 0 sample_call; Released resp_ok];
          _logged_in_id := VStr "42" |}
     = (Return (VStr "42"),
        {| now := 0; wire := []; log := [Sent 0 sample_call; Released resp_ok];
           _logged_in_id := VStr "42" |}).
Proof.
  split; [reflexivity|]. split; [reflexivity|]. split; [discriminate|].
  destruct (proj1 (proj2 (proj2 (logged_in_id_memoised sample_parsedate
              sample_host sample_blocklisted sample_client
              (sample_world [Answered 0 resp_ok]))) eq_refl
              {[ "id" := VStr "42" ]}
              {| now := 0; wire := [];
                 log := [Sent 0 sample_call; Released resp_ok];
                 _logged_in_id := VNone |} eq_refl)
            (VStr "42") eq_refl) as [Hfirst Hlater].
  split; [exact Hfirst|]. apply Hlater. discriminate.
Defined.

(** ** The payload of a post *)

Lemma spoiler_text_iff_cw_truthy_witness :
  invalid_visibility (VStr "unlisted") = inr false
  /\ post sample_parsedate sample_host sample_blocklisted Empty_set no_uploads
       sample_client (VStr "hello") VNone (VStr EmptyString) (VStr "unlisted") None
       (sample_world [Answered 0 resp_ok])
     = request sample_parsedate sample_host sample_blocklisted sample_client
         "POST" "/api/v1/statuses"
         {[ "data" := VDict {[ "status" := VStr "hello";
                               "visibility" := VStr "unlisted" ]} ]}
         (sample_world [Answered 0 resp_ok])
  /\ uploads_done [VStr "9"] sample_client ["cat.png"]
       (sample_world [Answered 0 resp_ok])
     = (Return [VStr "9"], sample_world [Answered 0 resp_ok])
  /\ post sample_parsedate sample_host sample_blocklisted string
       (uploads_done [VStr "9"])
       sample_client (VStr "hello") VNone (VStr "cats") (VStr "unlisted")
       (Some ["cat.png"]) (sample_world [Answered 0 resp_ok])
     = request sample_parsedate sample_host sample_blocklisted sample_client
         "POST" "/api/v1/statuses"
         {[ "data" := VDict {[ "status" := VStr "hello";
                               "visibility" := VStr "unlisted";
                               "spoiler_text" := VStr "cats";
                               "media_ids[]" := VList [VStr "9"] ]} ]}
         (sample_world [Answered 0 resp_ok]).
Proof.
  split; [reflexivity|]. split; [|split; [reflexivity|]].
  - exact (proj1 (proj2 (proj2 (proj2 (proj2 (spoiler_text_iff_cw_truthy
             sample_parsedate sample_host sample_blocklisted Empty_set no_uploads
             (VStr "hello") VNone (VStr EmptyString) (VStr "unlisted") None)))))
             sample_client None (sample_world [Answered 0 resp_ok]) eq_refl
             (or_introl eq_refl)).
  - exact (proj1 (proj2 (proj2 (proj2 (proj2 (proj2 (spoiler_text_iff_cw_truthy
             sample_parsedate sample_host sample_blocklisted string
             (uploads_done [VStr "9"])
             (VStr "hello") VNone (VStr "cats") (VStr "unlisted") None))))))
             sample_client "cat.png" [] (sample_world [Answered 0 resp_ok])
             [VStr "9"] (sample_world [Answered 0 resp_ok]) eq_refl eq_refl).
Defined.

(** ** Streams *)

Lemma stream_dispatches_in_arrival_order_witness :
  Forall2 (dispatched sample_loads (Some "notification")) sample_frames
    [ [VDict {[ "event" := VStr "filters_changed" ]}];
      [VDict {[ "type" := VStr "mention" ]}];
      [];
      [];
      [VDict {[ "type" := VStr "follow" ]}] ]
  /\ stream sample_loads (fun _ => sample_frames) sample_client
       "user:notification" (Some "notification")
     = {| yielded := [ VDict {[ "event" := VStr "filters_changed" ]};
                       VDict {[ "type" := VStr "mention" ]};
                       VDict {[ "type" := VStr "follow" ]} ];
          raised := None |}.
Proof.
  assert (Hall : Forall2 (dispatched sample_loads (Some "notification"))
    sample_frames
    [ [VDict {[ "event" := VStr "filters_changed" ]}];
      [VDict {[ "type" := VStr "mention" ]}];
      [];
      [];
      [VDict {[ "type" := VStr "follow" ]}] ]).
  { constructor; [|constructor; [|constructor;
      [|constructor; [|constructor; [|constructor]]]]].
    - apply dispatched_filters_changed; vm_compute; reflexivity.
    - apply (dispatched_payload _ _ _
               {[ "event" := VStr "notification"; "payload" := VStr doc_mention ]}
               (VStr "notification") doc_mention);
        [vm_compute; reflexivity | vm_compute; reflexivity | discriminate
        | reflexivity | vm_compute; reflexivity | vm_compute; reflexivity].
    - apply (dispatched_discarded _ _ _
               {[ "event" := VStr "update"; "payload" := VStr doc_status ]}
               (VStr "update"));
        [vm_compute; reflexivity | vm_compute; reflexivity | discriminate
        | cbn; discriminate].
    - apply dispatched_not_text. discriminate.
    - apply (dispatched_payload _ _ _
               {[ "event" := VStr "notification"; "payload" := VStr doc_follow ]}
               (VStr "notification") doc_follow);
        [vm_compute; reflexivity | vm_compute; reflexivity | discriminate
        | reflexivity | vm_compute; reflexivity | vm_compute; reflexivity]. }
  split; [exact Hall|].
  exact (stream_dispatches_in_arrival_order sample_loads (fun _ => sample_frames)
           sample_client "user:notification" (Some "notification") _ Hall).
Defined.

(** Against C5 as written: the stream ends with the decoder's
    [JSONDecodeError], for a broken frame and for a broken payload alike,
    which is not a [BadResponse]. *)
Lemma broken_frame_is_not_BadResponse :
  stream sample_loads (fun _ => frames_broken_outer) sample_client
    "user:notification" (Some "notification")
  = {| yielded := [VDict {[ "type" := VStr "mention" ]}];
       raised := Some JSONDecodeError |}
  /\ stream sample_loads (fun _ => frames_broken_payload) sample_client
       "user:notification" (Some "notification")
     = {| yielded := []; raised := Some JSONDecodeError |}
  /\ forall arg,
       raised (stream sample_loads (fun _ => frames_broken_outer) sample_client
                 "user:notification" (Some "notification"))
       <> Some (BadResponse arg).
Proof.
  split; [vm_compute; reflexivity|]. split; [vm_compute; reflexivity|].
  intros arg. vm_compute. discriminate.
Qed.

Lemma undecodable_frame_ends_stream_witness :
  (fun _ : string => frames_broken_outer) (streaming_url sample_client "public")
  = ([text_frame (envelope "notification" doc_mention)]
       ++ text_frame "not json"
       :: [text_frame (envelope "notification" doc_follow)])%list
  /\ Forall2 (dispatched sample_loads None)
       [text_frame (envelope "notification" doc_mention)]
       [[VDict {[ "type" := VStr "mention" ]}]]
  /\ undecodable sample_loads None (text_frame "not json")
  /\ stream sample_loads (fun _ => frames_broken_outer) sample_client "public" None
     = {| yielded := [VDict {[ "type" := VStr "mention" ]}];
          raised := Some JSONDecodeError |}.
Proof.
  assert (Hgood : Forall2 (dispatched sample_loads None)
       [text_frame (envelope "notification" doc_mention)]
       [[VDict {[ "type" := VStr "mention" ]}]]).
  { constructor; [|constructor].
    apply (dispatched_payload _ _ _
             {[ "event" := VStr "notification"; "payload" := VStr doc_mention ]}
             (VStr "notification") doc_mention);
      [vm_compute; reflexivity | vm_compute; reflexivity | discriminate
      | exact I | vm_compute; reflexivity | vm_compute; reflexivity]. }
  assert (Hbad : undecodable sample_loads None (text_frame "not json")).
  { apply undecodable_frame. vm_compute. reflexivity. }
  split; [reflexivity|]. split; [exact Hgood|]. split; [exact Hbad|].
  exact (proj1 (undecodable_frame_ends_stream sample_loads
                  (fun _ => frames_broken_outer) sample_client "public" None)
           [text_frame (envelope "notification" doc_mention)]
           [[VDict {[ "type" := VStr "mention" ]}]]
           (text_frame "not json")
           [text_frame (envelope "notification" doc_follow)]
           eq_refl Hgood Hbad).
Defined.

(** C9 at work on a [filters_changed] frame followed by a mention.
    [stream_notifications] yields the outer object of the first frame and
    then the mention, so one of the elements it yields is a mention; but
    [stream_mentions] subscripts the outer object, which has no [type], and
    ends with that [KeyError] before it comes to the mention. *)
Lemma stream_mentions_stops_at_filters_changed :
  stream_notifications sample_loads (fun _ => frames_filters_then_mention)
    sample_client
  = {| yielded := [ VDict {[ "event" := VStr "filters_changed" ]};
                    VDict {[ "type" := VStr "mention" ]} ];
       raised := None |}
  /\ List.filter is_mention
       (yielded (stream_notifications sample_loads
                   (fun _ => frames_filters_then_mention) sample_client))
     = [VDict {[ "type" := VStr "mention" ]}]
  /\ stream_mentions sample_loads (fun _ => frames_filters_then_mention)
       sample_client
     = {| yielded := []; raised := Some (KeyError "type") |}.
Proof.
  split; [vm_compute; reflexivity|]. split; vm_compute; reflexivity.
Qed.

(** ** The wrappers *)

Lemma object_stands_for_its_id_witness :
  ({[ "id" := VStr "42"; "content" := VStr "hello" ]} : gmap string value) !! "id"
  = Some (VStr "42")
  /\ _unpack_id (VStr "42") = VStr "42"
  /\ favorite sample_parsedate sample_host sample_blocklisted sample_repr
       sample_client (VDict {[ "id" := VStr "42"; "content" := VStr "hello" ]})
     = favorite sample_parsedate sample_host sample_blocklisted sample_repr
         sample_client (VStr "42").
Proof.
  split; [vm_compute; reflexivity|]. split; [reflexivity|].
  refine (proj1 (proj2 (proj2 (proj2 (object_stands_for_its_id sample_parsedate
            sample_host sample_blocklisted sample_repr sample_client
            {[ "id" := VStr "42"; "content" := VStr "hello" ]} (VStr "42")
            VNone VNone VNone VNone _ eq_refl))))).
  vm_compute. reflexivity.
Defined.

Lemma following_whom_witness :
  truthy VNone = false
  /\ VStr "42" <> VNone
  /\ following sample_parsedate sample_host sample_blocklisted sample_repr
       sample_client VNone
       {| now := 0; wire := [Answered 1 resp_404]; log := [];
          _logged_in_id := VStr "42" |}
     = request sample_parsedate sample_host sample_blocklisted sample_client "GET"
         "/api/v1/accounts/42/following" ∅
         {| now := 0; wire := [Answered 1 resp_404]; log := [];
            _logged_in_id := VStr "42" |}.
Proof.
  split; [reflexivity|]. split; [discriminate|].
  refine (proj1 (proj2 (following_whom sample_parsedate sample_host
            sample_blocklisted sample_repr sample_client VNone
            {| now := 0; wire := [Answered 1 resp_404]; log := [];
               _logged_in_id := VStr "42" |})) eq_refl _).
  discriminate.
Defined.

Lemma account_statuses_query_witness :
  "limit" <> "exclude_reblogs"
  /\ "limit" <> "max_id"
  /\ account_statuses_params (VBool true) (status_of "2") !! "limit" = None.
Proof.
  split; [discriminate|]. split; [discriminate|].
  refine (proj1 (proj2 (proj2 (account_statuses_query sample_parsedate
            sample_host sample_blocklisted sample_repr sample_client
            (VStr "7") (VBool true) (status_of "2") (VInt 5)))) "limit" _ _);
    discriminate.
Defined.

Lemma account_statuses_iter_pages_witness :
  paged sample_parsedate sample_host sample_blocklisted sample_repr
    sample_client (VStr "7") (VBool true) VNone (sample_world sample_pages)
    [[status_of "3"; status_of "2"]; [status_of "1"]] (Return tt) sample_pages_end
  /\ account_statuses_iter sample_parsedate sample_host sample_blocklisted
       sample_repr sample_keys sample_client (VStr "7") (VBool true) VNone
       (sample_world sample_pages)
     = ((concat [[status_of "3"; status_of "2"]; [status_of "1"]], Return tt),
        sample_pages_end).
Proof.
  assert (Hpaged : paged sample_parsedate sample_host sample_blocklisted
    sample_repr sample_client (VStr "7") (VBool true) VNone
    (sample_world sample_pages)
    [[status_of "3"; status_of "2"]; [status_of "1"]] (Return tt)
    sample_pages_end).
  { eapply paged_more; [vm_compute; reflexivity|].
    eapply paged_more; [vm_compute; reflexivity|].
    eapply paged_end; [vm_compute; reflexivity|reflexivity]. }
  split; [exact Hpaged|].
  exact (account_statuses_iter_pages sample_parsedate sample_host
           sample_blocklisted sample_repr sample_keys sample_client
           (VStr "7") (VBool true) VNone _ _ _ _ Hpaged).
Defined.

Lemma denied_host_is_never_contacted_witness :
  sample_host (api_base_url sample_client) = Some "example.test"
  /\ sample_denied "example.test" = true
  /\ request sample_parsedate sample_host sample_denied sample_client
       "POST" "/api/v1/statuses/42/favourite" ∅ (sample_world [Answered 0 resp_ok])
     = (Raise (RuntimeError "stop being a chud"),
        sample_world [Answered 0 resp_ok]).
Proof.
  split; [reflexivity|]. split; [reflexivity|].
  exact (proj1 (denied_host_is_never_contacted sample_parsedate sample_host
                  sample_denied Empty_set no_uploads sample_repr sample_keys
                  sample_client "example.test" (sample_world [Answered 0 resp_ok])
                  eq_refl eq_refl)
           "POST" "/api/v1/statuses/42/favourite" ∅).
Defined.

(** ** Replies *)

Lemma reply_mentions_sound_witness :
  reply_mentions sample_keys (VStr "42") sample_status
  = inr [(VStr "7", VStr "alice"); (VStr "8", VStr "bob")]
  /\ exists rest,
       [(VStr "7", VStr "alice"); (VStr "8", VStr "bob")]
       = (VStr "7", VStr "alice") :: rest
       /\ Forall (fun e => py_eqb (fst e) (VStr "42") = false) rest.
Proof.
  assert (Hrun : reply_mentions sample_keys (VStr "42") sample_status
                 = inr [(VStr "7", VStr "alice"); (VStr "8", VStr "bob")]).
  { vm_compute. reflexivity. }
  split; [exact Hrun|].
  destruct (reply_mentions_sound sample_keys (VStr "42") sample_status _ Hrun)
    as (account & author & acct & mentions & accounts & rest
        & _ & _ & _ & _ & _ & Hm & Hrest & _).
  exists rest. split; [|exact Hrest].
  injection Hm as -> -> ->. reflexivity.
Defined.


Lemma reply_content_warning_witness :
  reply_args sample_keys (VStr "42") sample_status (VStr "hello") VNone
  = inr (VStr "@alice @bob hello", VStr "100", VStr "re: cats", VStr "unlisted")
  /\ truthy VNone = false
  /\ getitem sample_status "spoiler_text" = inr (VStr "cats")
  /\ truthy (VStr "cats") = true
  /\ exists text, VStr "cats" = VStr text /\ VStr "re: cats" = VStr ("re: " ++ text).
Proof.
  assert (Hrun : reply_args sample_keys (VStr "42") sample_status (VStr "hello") VNone
    = inr (VStr "@alice @bob hello", VStr "100", VStr "re: cats", VStr "unlisted")).
  { vm_compute. reflexivity. }
  assert (Hspoiler : getitem sample_status "spoiler_text" = inr (VStr "cats")).
  { vm_compute. reflexivity. }
  split; [exact Hrun|]. split; [reflexivity|]. split; [exact Hspoiler|].
  split; [reflexivity|].
  exact (proj1 (proj2 (reply_content_warning sample_keys (VStr "42") sample_status
                         (VStr "hello") VNone _ _ _ _ Hrun))
           eq_refl (VStr "cats") Hspoiler eq_refl).
Defined.

(** ** The constructor *)

Lemma constructor_normalises_witness :
  whitespace " "%char = true
  /\ __init__ "https://example.test//" " abc" = sample_client
  /\ __init__ "https://example.test" (String " "%char "abc")
     = __init__ "https://example.test" "abc".
Proof.
  split; [reflexivity|]. split; [reflexivity|].
  exact (proj1 (proj1 (proj2 (proj2 (proj2 (proj2
           (constructor_normalises "https://example.test" "abc")))))
                  " "%char eq_refl)).
Defined.

(** ** Posting *)


Lemma post_data_fields_witness :
  ("sensitive" ∉ ["status"; "in_reply_to_id"; "visibility"; "spoiler_text";
                  "media_ids[]"])
  /\ post_data (VStr "hello") (status_of "100") (VStr "cats") (VStr "direct")
       (Some [VStr "9"]) !! "sensitive" = None
  /\ invalid_visibility (VStr "direct") = inr false
  /\ uploads_done [VStr "9"] sample_client ["cat.png"]
       (sample_world [Answered 0 resp_ok])
     = (Return [VStr "9"], sample_world [Answered 0 resp_ok])
  /\ post sample_parsedate sample_host sample_blocklisted string
       (uploads_done [VStr "9"])
       sample_client (VStr "hello") (status_of "100") (VStr "cats") (VStr "direct")
       (Some ["cat.png"]) (sample_world [Answered 0 resp_ok])
     = request sample_parsedate sample_host sample_blocklisted sample_client
         "POST" "/api/v1/statuses"
         {[ "data" := VDict {[ "status" := VStr "hello";
                               "in_reply_to_id" := VStr "100";
                               "visibility" := VStr "direct";
                               "spoiler_text" := VStr "cats";
                               "media_ids[]" := VList [VStr "9"] ]} ]}
         (sample_world [Answered 0 resp_ok]).
Proof.
  assert (Hk : "sensitive" ∉ ["status"; "in_reply_to_id"; "visibility";
                              "spoiler_text"; "media_ids[]"]).
  { intros Hin. repeat (apply elem_of_cons in Hin; destruct Hin as [Hin|Hin];
                        [discriminate|]).
    inversion Hin. }
  split; [exact Hk|]. split; [|split; [reflexivity|split; [reflexivity|]]].
  - exact (proj1 (proj2 (proj2 (proj2 (proj2 (post_data_fields sample_parsedate
             sample_host sample_blocklisted string (uploads_done [VStr "9"])
             (VStr "hello") (status_of "100") (VStr "cats") (VStr "direct")
             (Some [VStr "9"])))))) "sensitive" Hk).
  - exact (proj1 (proj2 (proj2 (proj2 (proj2 (proj2 (proj2 (post_data_fields
             sample_parsedate sample_host sample_blocklisted string
             (uploads_done [VStr "9"])
             (VStr "hello") (status_of "100") (VStr "cats") (VStr "direct")
             None))))))
             sample_client "cat.png" [] (sample_world [Answered 0 resp_ok])
             [VStr "9"] (sample_world [Answered 0 resp_ok]) eq_refl eq_refl)).
Defined.

(** ** Streams, once more *)

Lemma stream_keeps_what_it_yielded_witness :
  (fun _ : string => frames_broken_outer) (streaming_url sample_client "public")
  = ([text_frame (envelope "notification" doc_mention); text_frame "not json"]
       ++ [text_frame (envelope "notification" doc_follow)])%list
  /\ raised (async_for
               [text_frame (envelope "notification" doc_mention);
                text_frame "not json"]
               None (on_message sample_loads None))
     = Some JSONDecodeError
  /\ stream sample_loads (fun _ => frames_broken_outer) sample_client "public" None
     = async_for
         [text_frame (envelope "notification" doc_mention); text_frame "not json"]
         None (on_message sample_loads None).
Proof.
  assert (Hseen : raised (async_for
               [text_frame (envelope "notification" doc_mention);
                text_frame "not json"]
               None (on_message sample_loads None))
     = Some JSONDecodeError).
  { vm_compute. reflexivity. }
  split; [reflexivity|]. split; [exact Hseen|].
  exact (proj1 (stream_keeps_what_it_yielded sample_loads
                  (fun _ => frames_broken_outer) sample_client "public" None
                  [text_frame (envelope "notification" doc_mention);
                   text_frame "not json"]
                  [text_frame (envelope "notification" doc_follow)] eq_refl)
           JSONDecodeError Hseen).
Defined.

Lemma stream_mentions_of_typed_witness :
  Forall (fun notif => exists t, getitem notif "type" = inr t)
    (yielded (stream_notifications sample_loads
                (fun _ => [text_frame (envelope "notification" doc_follow);
                           text_frame (envelope "update" doc_status);
                           text_frame (envelope "notification" doc_mention)])
                sample_client))
  /\ stream_mentions sample_loads
       (fun _ => [text_frame (envelope "notification" doc_follow);
                  text_frame (envelope "update" doc_status);
                  text_frame (envelope "notification" doc_mention)])
       sample_client
     = {| yielded := [VDict {[ "type" := VStr "mention" ]}]; raised := None |}.
Proof.
  assert (Htyped : Forall (fun notif => exists t, getitem notif "type" = inr t)
    (yielded (stream_notifications sample_loads
                (fun _ => [text_frame (envelope "notification" doc_follow);
                           text_frame (envelope "update" doc_status);
                           text_frame (envelope "notification" doc_mention)])
                sample_client))).
  { vm_compute. repeat constructor; eexists; vm_compute; reflexivity. }
  split; [exact Htyped|].
  rewrite (stream_mentions_of_typed sample_loads _ sample_client Htyped).
  vm_compute. reflexivity.
Defined.
